(** * vcfconvert.c: conversion between VCF/BCF and tabular genotype formats

    A shallow embedding of [src/vcfconvert.c] and the properties of its
    conversion engine: the allele table and genotype codec of the
    tsv-to-vcf direction ([acgt_to_5], [tsv_setter_aa1], [tsv_setter_aa],
    [tsv_to_vcf]), the sample selection of [open_vcf], the output routing,
    site filter and site loop of [vcf_to_gensample], and the option loop
    of [main_vcfconvert].

    Conventions.
    - A C [char] is an [ascii]; a C string is the [string] of the
      characters that precede its terminating NUL, and reading the byte
      one past those characters yields NUL.
    - A C [int] is a [Z]; [++] on the run counters is written with the
      32-bit two's complement wrap-around.
    - [error(...)] prints a message and exits: it is the [Fatal] outcome.
    - Functions of htslib and of the other bcftools modules ([filter.h],
      [convert.h], [tsv2vcf.h]) are not part of this file: they appear as
      section variables, as the fields of a class, or as the data they
      hand back. *)

From Stdlib Require Import ZArith Ascii String List Lia Bool.
From stdpp Require Import base numbers list strings.

Local Open Scope string_scope.
Local Open Scope Z_scope.

(** ** Characters and C integers *)

Definition NUL : ascii := Ascii.zero.

(** [s[k]] for a C string [s]: the terminating NUL is read at the end. *)
Definition char_at (s : string) (k : nat) : ascii :=
  match String.get k s with Some c => c | None => NUL end.

Definition is_nul (c : ascii) : bool := Ascii.eqb c NUL.

(** [toupper] and [tolower] of <ctype.h>, in the "C" locale. *)
Definition toupper (c : ascii) : ascii :=
  let k := nat_of_ascii c in
  if ((97 <=? k) && (k <=? 122))%nat then ascii_of_nat (k - 32) else c.

Definition tolower (c : ascii) : ascii :=
  let k := nat_of_ascii c in
  if ((65 <=? k) && (k <=? 90))%nat then ascii_of_nat (k + 32) else c.

(** Two's complement wrap-around of a 32-bit [int]. *)
Definition int_wrap (z : Z) : Z := (z + 2147483648) mod 4294967296 - 2147483648.

(** [x++] on an [int]. *)
Definition int_incr (x : Z) : Z := int_wrap (x + 1).

(** ** Fatal errors *)

Inductive fatal_t : Type :=
| ErrRegions        (* "Failed to read the regions" *)
| ErrTargets        (* "Failed to read the targets" *)
| ErrOpenInput      (* "Failed to open or the file not indexed" *)
| ErrSampleParse    (* "Error parsing the sample list" *)
| ErrSampleMissing (k : Z)  (* "Sample name mismatch: sample #k not found in the header" *)
| ErrReadList       (* "Could not parse <sample list>" *)
| ErrSampleCount    (* "The number of samples does not match, perhaps some are present multiple times?" *)
| ErrTag            (* "todo: --tag <tag>" *)
| ErrWriteSamples   (* "Failed to write <sample_fname>" *)
| ErrWriteGen       (* "Error writing <gen_fname>" *)
| ErrCloseGen       (* "Error closing <gen_fname>" *)
| ErrFetchRef       (* "faidx_fetch_seq failed at <chr>:<pos>" *)
| ErrTooFewColumns  (* "Too few columns for <n> samples at <chr>:<pos>" *)
| ErrParseSite      (* "Error parsing the site <chr>:<pos>, expected two characters" *)
| ErrUpdateGT       (* "Could not update the GT field" *)
| ErrOutputType     (* "The output type <x> not recognised" *)
| ErrUnknownArg     (* "Unknown argument" *)
| ErrUsage.         (* usage(): exit(1) *)

Inductive outcome (A : Type) : Type :=
| Ok (a : A)
| Fatal (e : fatal_t).
Arguments Ok {A} a.
Arguments Fatal {A} e.

#[global] Instance outcome_bind : MBind outcome := fun A B k m =>
  match m with
  | Ok a => k a
  | Fatal e => Fatal e
  end.

#[global] Instance outcome_ret : MRet outcome := fun A a => Ok a.

(** ** The allele table and the genotype codec (tsv to vcf) *)

Module Tsv.

(** The anonymous counter struct [args->n]. *)
Record counts : Type := Counts {
  total : Z; skipped : Z; hom_rr : Z; het_ra : Z; hom_aa : Z; het_aa : Z
}.

Definition n_zero : counts := Counts 0 0 0 0 0 0.

Definition acgt_to_5 (base : ascii) : Z :=
  if Ascii.eqb base "A" then 0
  else if Ascii.eqb base "C" then 1
  else if Ascii.eqb base "G" then 2
  else if Ascii.eqb base "T" then 3
  else 4.

(** [int alleles[5]]: read and write of one slot.  Every index used by
    the code comes from [acgt_to_5] and is in range. *)
Definition al_get (alleles : list Z) (i : Z) : Z :=
  match alleles !! Z.to_nat i with Some v => v | None => 0 end.

Definition al_set (alleles : list Z) (i v : Z) : list Z :=
  <[Z.to_nat i := v]> alleles.

(** A genotype slot of the [int32_t] vector handed to
    [bcf_update_genotypes].  The two htslib macros that produce the
    values are kept symbolic. *)
Inductive gt_t : Type :=
| bcf_gt_unphased (idx : Z)
| bcf_int32_vector_end.

(** The reader position [tsv->ss], [tsv->se]: the text from [ss] to the
    end of the line and the token length [se - ss]. *)
Record cursor : Type := Cursor { ss : string; se_ss : Z }.

(** The two allele codes [a0], [a1] that [tsv_setter_aa1] computes. *)
Definition code0 (tok : cursor) : Z := acgt_to_5 (toupper (char_at (ss tok) 0)).

Definition code1 (tok : cursor) : Z :=
  if is_nul (char_at (ss tok) 1) then code0 tok
  else acgt_to_5 (toupper (char_at (ss tok) 1)).

(** The statement [if ( alleles[a]<0 ) alleles[a] = nals++], on the
    pair of the table and the counter [nals]. *)
Definition assign (al : list Z * Z) (a : Z) : list Z * Z :=
  let (alleles, nals) := al in
  if al_get alleles a <? 0 then (al_set alleles a nals, int_incr nals)
  else (alleles, nals).

(** The tally at the end of [tsv_setter_aa1]. *)
Definition tally (n : counts) (ref a0 a1 : Z) : counts :=
  if (ref =? a0) && (ref =? a1) then
    Counts (total n) (skipped n) (int_incr (hom_rr n)) (het_ra n) (hom_aa n) (het_aa n)
  else if ref =? a0 then
    Counts (total n) (skipped n) (hom_rr n) (int_incr (het_ra n)) (hom_aa n) (het_aa n)
  else if ref =? a1 then
    Counts (total n) (skipped n) (hom_rr n) (int_incr (het_ra n)) (hom_aa n) (het_aa n)
  else if a0 =? a1 then
    Counts (total n) (skipped n) (hom_rr n) (het_ra n) (int_incr (hom_aa n)) (het_aa n)
  else
    Counts (total n) (skipped n) (hom_rr n) (het_ra n) (hom_aa n) (int_incr (het_aa n)).

(** What [tsv_setter_aa1] reads and writes through its pointers:
    [args->n], [alleles], [*nals] and the buffer [args->gts]. *)
Record aa_state : Type := AaState {
  st_n : counts;
  st_alleles : list Z;
  st_nals : Z;
  st_gts : list gt_t
}.

(** [tsv_setter_aa1(args, ss, se, alleles, nals, ref, gts)], where the
    pointer [gts] is the buffer [st_gts] at offset [off]. *)
Definition tsv_setter_aa1 (st : aa_state) (tok : cursor) (ref : Z) (off : nat)
  : Z * aa_state :=
  if 2 <? se_ss tok then (-1, st)
  else if Ascii.eqb (char_at (ss tok) 0) "-" then (-2, st)
  else if Ascii.eqb (char_at (ss tok) 0) "I" then (-2, st)
  else if Ascii.eqb (char_at (ss tok) 0) "D" then (-2, st)
  else
    let a0 := code0 tok in
    let a1 := code1 tok in
    let (alleles, nals) := assign (assign (st_alleles st, st_nals st) a0) a1 in
    let g0 := bcf_gt_unphased (al_get alleles a0) in
    let g1 := if is_nul (char_at (ss tok) 1) then bcf_int32_vector_end
              else bcf_gt_unphased (al_get alleles a1) in
    (0, AaState (tally (st_n st) ref a0 a1) alleles nals
                (<[S off := g1]> (<[off := g0]> (st_gts st)))).

(** The reader [tsv_t] as [tsv_setter_aa] uses it.  [tsv_next] belongs to
    [tsv2vcf.h]; the reader is given here by the position it is at and
    the positions that its successive calls move to, and it answers -1
    once they are used up. *)
Record tsv_t : Type := TsvT { cur : cursor; upcoming : list cursor }.

Definition tsv_next (tsv : tsv_t) : Z * tsv_t :=
  match upcoming tsv with
  | [] => (-1, tsv)
  | c :: rest => (0, TsvT c rest)
  end.

(** The fields of the record [bcf1_t] that the setter fills. *)
Record bcf1_t : Type := Bcf1 {
  n_sample : Z;
  d_allele : string;     (* set by [bcf_update_alleles_str] *)
  d_gt : list gt_t       (* set by [bcf_update_genotypes] *)
}.

(** [kputc(c, &str)]. *)
Definition kputc (c : ascii) (str : string) : string := str ++ String c "".

(** What a callee sees of a [kstring_t] buffer passed as [char*]: the
    characters up to the first NUL. *)
Fixpoint cstr (buf : string) : string :=
  match buf with
  | "" => ""
  | String c rest => if is_nul c then "" else String c (cstr rest)
  end.

(** The body of [for (i=0; i<5; i++)] at the end of [tsv_setter_aa]. *)
Definition put_allele (alleles : list Z) (str : string) (i : Z) : string :=
  if 0 <? al_get alleles i
  then kputc (char_at "ACGTN" (Z.to_nat i)) (kputc "," str)
  else str.

Section Setter.

(** The return value of [bcf_update_genotypes] (htslib) on the vector it
    is given. *)
Variable bcf_update_genotypes_ret : list gt_t -> Z.

(** The sample loop of [tsv_setter_aa], [todo] samples from sample [i]
    on.  The first component of the result is the last value of [ret]:
    0 when every sample was decoded, -2 when the loop was left at
    "something else than a SNP". *)
Fixpoint aa_samples (todo i : nat) (tsv : tsv_t) (st : aa_state) (iref : Z)
  : outcome (Z * tsv_t * aa_state) :=
  match todo with
  | O => Ok (0, tsv, st)
  | S todo' =>
      tsv1 ← (if (0 <? i)%nat
               then let (r, t) := tsv_next tsv in
                    if r =? -1 then Fatal ErrTooFewColumns else Ok t
               else Ok tsv);
      let (ret, st1) := tsv_setter_aa1 st (cur tsv1) iref (2 * i)%nat in
      if ret =? -1 then Fatal ErrParseSite
      else if ret =? -2 then Ok (-2, tsv1, st1)
      else aa_samples todo' (S i) tsv1 st1 iref
  end.

(** What [tsv_setter_aa] leaves behind: its return value, the reader,
    the record, and [args->n] and [args->gts]. *)
Record aa_result : Type := AaResult {
  aa_ret : Z;
  aa_tsv : tsv_t;
  aa_rec : bcf1_t;
  aa_n : counts;
  aa_gts : list gt_t
}.

(** [tsv_setter_aa(tsv, rec, usr)].  [ref] is what [faidx_fetch_seq]
    returned for the site ([None] for a null pointer) and [nsmpl] is
    [bcf_hdr_nsamples(args->header)]. *)
Definition tsv_setter_aa (ref : option string) (nsmpl : Z)
    (tsv : tsv_t) (rec : bcf1_t) (n : counts) (gts : list gt_t)
  : outcome aa_result :=
  match ref with
  | None => Fatal ErrFetchRef
  | Some ref =>
      let ref0 := toupper (char_at ref 0) in
      let iref := acgt_to_5 ref0 in
      let alleles := al_set [-1; -1; -1; -1; -1] iref 0 in
      let rec1 := Bcf1 nsmpl (d_allele rec) (d_gt rec) in
      '(ret, tsv1, st) ← aa_samples (Z.to_nat nsmpl) 0 tsv (AaState n alleles 1 gts) iref;
      if ret =? -2 then Ok (AaResult 0 tsv1 rec1 (st_n st) (st_gts st))
      else
        let str := fold_left (put_allele (st_alleles st)) [0; 1; 2; 3; 4] (kputc ref0 "") in
        let vec := take (Z.to_nat (nsmpl * 2)) (st_gts st) in
        if negb (bcf_update_genotypes_ret vec =? 0) then Fatal ErrUpdateGT
        else Ok (AaResult 0 tsv1 (Bcf1 nsmpl (cstr str) vec) (st_n st) (st_gts st))
  end.

(** The return value of [tsv_parse] (tsv2vcf.c) on a line whose CHROM,
    POS and ID columns were set, as a function of what the AA setter
    returned. *)
Variable tsv_parse_ret : Z -> Z.

(** An input line of [tsv_to_vcf]: a comment, or a row that reaches the
    AA column, with the reference sequence fetched at its coordinate and
    the reader positioned on the first call. *)
Inductive line_t : Type :=
| Comment
| Row (ref : option string) (tsv : tsv_t).

(** The state of the row loop of [tsv_to_vcf]: the counters, the buffer
    [args->gts], the record [rec] that every row reuses, and the records
    written so far by [bcf_write]. *)
Record run_t : Type := Run {
  run_n : counts;
  run_gts : list gt_t;
  run_rec : bcf1_t;
  run_out : list bcf1_t
}.

(** One turn of [while ( hts_getline(...) > 0 )] in [tsv_to_vcf]. *)
Definition tsv_to_vcf_line (nsmpl : Z) (run : run_t) (line : line_t) : outcome run_t :=
  match line with
  | Comment => Ok run
  | Row ref tsv =>
      let n := run_n run in
      let n1 := Counts (int_incr (total n)) (skipped n) (hom_rr n) (het_ra n) (hom_aa n) (het_aa n) in
      r ← tsv_setter_aa ref nsmpl tsv (run_rec run) n1 (run_gts run);
      if tsv_parse_ret (aa_ret r) =? 0
      then Ok (Run (aa_n r) (aa_gts r) (aa_rec r) (run_out run ++ [aa_rec r]))
      else
        let m := aa_n r in
        Ok (Run (Counts (total m) (int_incr (skipped m)) (hom_rr m) (het_ra m) (hom_aa m) (het_aa m))
                (aa_gts r) (aa_rec r) (run_out run))
  end.

Fixpoint tsv_to_vcf_lines (nsmpl : Z) (run : run_t) (lines : list line_t) : outcome run_t :=
  match lines with
  | [] => Ok run
  | line :: rest =>
      run1 ← tsv_to_vcf_line nsmpl run line;
      tsv_to_vcf_lines nsmpl run1 rest
  end.

End Setter.

(** *** Predicates used to state the properties *)

(** A call that [tsv_setter_aa1] decodes: at most two characters, and
    not one of the markers '-', 'I', 'D'. *)
Definition marker (tok : cursor) : bool :=
  Ascii.eqb (char_at (ss tok) 0) "-"
  || Ascii.eqb (char_at (ss tok) 0) "I"
  || Ascii.eqb (char_at (ss tok) 0) "D".

Definition usable (tok : cursor) : bool := (se_ss tok <=? 2) && negb (marker tok).

(** The four tallies, and the class of a call as the specification
    words it. *)
Inductive gt_class : Type := HomRef | HetRefAlt | HomAlt | HetNonRef.

Definition counter (k : gt_class) (n : counts) : Z :=
  match k with
  | HomRef => hom_rr n
  | HetRefAlt => het_ra n
  | HomAlt => hom_aa n
  | HetNonRef => het_aa n
  end.

Definition gt_class_eqb (j k : gt_class) : bool :=
  match j, k with
  | HomRef, HomRef | HetRefAlt, HetRefAlt | HomAlt, HomAlt | HetNonRef, HetNonRef => true
  | _, _ => false
  end.

(** "Both genotype positions set to the same allele index". *)
Definition same_index_slots (g0 g1 : option gt_t) : Prop :=
  exists idx, g0 = Some (bcf_gt_unphased idx) /\ g1 = Some (bcf_gt_unphased idx).

(** The table built for one site before any call is read. *)
Definition site_table (iref : Z) : list Z := al_set [-1; -1; -1; -1; -1] iref 0.

(** The letter of a table slot, and the allele string made of a
    reference base and the slots of the alternate alleles. *)
Definition letter (i : Z) : ascii := char_at "ACGTN" (Z.to_nat i).

Definition allele_str (ref0 : ascii) (alts : list Z) : string :=
  String ref0 (fold_right (fun a str => String "," (String (letter a) str)) "" alts).

(** The allele codes read from a list of calls, in the order of reading. *)
Definition call_codes (calls : list cursor) : list Z :=
  flat_map (fun c => [code0 c; code1 c]) calls.

(** The number of table slots that hold an index. *)
Definition assigned (alleles : list Z) : Z :=
  Z.of_nat (length (List.filter (fun v => 0 <=? v) alleles)).



(** The invariant of the table while the calls of a site are decoded.
    [seen] lists the codes read so far. *)
Definition table_inv (iref : Z) (seen : list Z) (al : list Z) (nals : Z) : Prop :=
  length al = 5%nat
  /\ 1 <= nals
  /\ nals = assigned al
  /\ al_get al iref = 0
  /\ (forall b, 0 <= b < 5 -> al_get al b = 0 -> b = iref)
  /\ (forall b, 0 <= b < 5 -> (0 <= al_get al b <-> b = iref \/ In b seen)).

(** The calls that the sample loop has still to visit when it is at
    sample [i]: the current position counts only before the first
    sample, later ones are reached through [tsv_next]. *)
Definition pending (i : nat) (tsv : tsv_t) : list cursor :=
  match i with
  | O => cur tsv :: upcoming tsv
  | S _ => upcoming tsv
  end.

(** The state after [tsv_setter_aa1] has run on each call of [calls],
    the first of them for sample [i]. *)
Fixpoint decode_calls (calls : list cursor) (i : nat) (st : aa_state) (iref : Z) : aa_state :=
  match calls with
  | [] => st
  | c :: rest => decode_calls rest (S i) (snd (tsv_setter_aa1 st c iref (2 * i)%nat)) iref
  end.

(** *** Further predicates and measures *)

(** A call with its text in upper case. *)
Fixpoint str_toupper (s : string) : string :=
  match s with
  | "" => ""
  | String c rest => String (toupper c) (str_toupper rest)
  end.

Definition upcase (tok : cursor) : cursor := Cursor (str_toupper (ss tok)) (se_ss tok).

(** The indices of a table are the numbers below [nals], each held by
    one slot. *)
Definition table_dense (al : list Z) (nals : Z) : Prop :=
  (forall b, 0 <= b < 5 -> -1 <= al_get al b < nals)
  /\ (forall a b, 0 <= a < 5 -> 0 <= b < 5 ->
                  0 <= al_get al a -> al_get al a = al_get al b -> a = b)
  /\ (forall k, 0 <= k < nals -> exists a, 0 <= a < 5 /\ al_get al a = k).

(** The number of base classes, other than that of the reference, that
    the calls use. *)
Definition n_alts (iref : Z) (calls : list cursor) : nat :=
  length (List.filter (fun a => negb (a =? iref) && existsb (Z.eqb a) (call_codes calls))
            [0; 1; 2; 3; 4]).

(** The sum of the four class counters. *)
Definition class_sum (n : counts) : Z := hom_rr n + het_ra n + hom_aa n + het_aa n.

(** The rows among the input lines. *)
Definition is_row (l : line_t) : bool :=
  match l with
  | Row _ _ => true
  | Comment => false
  end.

Definition n_rows (lines : list line_t) : Z := Z.of_nat (length (List.filter is_row lines)).

End Tsv.

(** ** Options, sample selection, output routing and the site loop
       (vcf to gen/sample) *)

Module Vcf.

Definition FLT_INCLUDE : Z := 1.
Definition FLT_EXCLUDE : Z := 2.

Definition nl : string := String (ascii_of_nat 10) "".

(** The value of a character constant. *)
Definition ch (c : ascii) : Z := Z.of_nat (nat_of_ascii c).

Inductive convert_func_t : Type := do_vcf_to_gensample | do_tsv_to_vcf.

(** The flag combinations that [-O] stores in [output_type]. *)
Inductive output_type_t : Type := BCF_GZ | BCF | VCF_GZ | VCF.

(** The fields of [args_t] that the option loop sets. *)
Record args_t : Type := Args {
  filter_str : option string;
  filter_logic : Z;
  regions_list : option string;
  regions_is_file : Z;
  targets_list : option string;
  targets_is_file : Z;
  sample_list : option string;
  sample_is_file : Z;
  convert_func : option convert_func_t;
  outfname : string;
  infname : option string;
  tag : option string;
  ref_fname : option string;
  output_type : output_type_t
}.

(** [calloc], then [outfname = "-"] and [output_type = HTS_FT_VCF]. *)
Definition args_init : args_t :=
  Args None 0 None 0 None 0 None 0 None "-" None None None VCF.

Definition set_filter (a : args_t) (str : string) (logic : Z) : args_t :=
  Args (Some str) logic (regions_list a) (regions_is_file a) (targets_list a)
       (targets_is_file a) (sample_list a) (sample_is_file a) (convert_func a) (outfname a)
       (infname a) (tag a) (ref_fname a) (output_type a).

Definition set_regions (a : args_t) (l : string) (is_file : Z) : args_t :=
  Args (filter_str a) (filter_logic a) (Some l) is_file (targets_list a)
       (targets_is_file a) (sample_list a) (sample_is_file a) (convert_func a) (outfname a)
       (infname a) (tag a) (ref_fname a) (output_type a).

Definition set_targets (a : args_t) (l : string) (is_file : Z) : args_t :=
  Args (filter_str a) (filter_logic a) (regions_list a) (regions_is_file a) (Some l)
       is_file (sample_list a) (sample_is_file a) (convert_func a) (outfname a)
       (infname a) (tag a) (ref_fname a) (output_type a).

Definition set_samples (a : args_t) (l : string) (is_file : Z) : args_t :=
  Args (filter_str a) (filter_logic a) (regions_list a) (regions_is_file a) (targets_list a)
       (targets_is_file a) (Some l) is_file (convert_func a) (outfname a)
       (infname a) (tag a) (ref_fname a) (output_type a).

Definition set_func (a : args_t) (f : convert_func_t) (out : string) (inp : option string)
  : args_t :=
  Args (filter_str a) (filter_logic a) (regions_list a) (regions_is_file a) (targets_list a)
       (targets_is_file a) (sample_list a) (sample_is_file a) (Some f) out
       inp (tag a) (ref_fname a) (output_type a).

Definition set_names (a : args_t) (out : string) (inp tg rf : option string)
    (ot : output_type_t) : args_t :=
  Args (filter_str a) (filter_logic a) (regions_list a) (regions_is_file a) (targets_list a)
       (targets_is_file a) (sample_list a) (sample_is_file a) (convert_func a) out
       inp tg rf ot.

(** One turn of [while ((c = getopt_long(...)) >= 0) switch (c)]: [c] is
    the value that [getopt_long] returned and [optarg] its argument. *)
Definition parse_opt (a : args_t) (c : Z) (optarg : string) : outcome args_t :=
  if c =? ch "e" then Ok (set_filter a optarg (Z.lor (filter_logic a) FLT_EXCLUDE))
  else if c =? ch "i" then Ok (set_filter a optarg (Z.lor (filter_logic a) FLT_INCLUDE))
  else if c =? ch "r" then Ok (set_regions a optarg (regions_is_file a))
  else if c =? ch "R" then Ok (set_regions a optarg 1)
  else if c =? ch "t" then Ok (set_targets a optarg (targets_is_file a))
  else if c =? ch "T" then Ok (set_targets a optarg 1)
  else if c =? ch "s" then Ok (set_samples a optarg (sample_is_file a))
  else if c =? ch "S" then Ok (set_samples a optarg 1)
  else if c =? ch "g" then Ok (set_func a do_vcf_to_gensample optarg (infname a))
  else if c =? 1 then
    Ok (set_names a (outfname a) (infname a) (Some optarg) (ref_fname a) (output_type a))
  else if c =? 2 then Ok (set_func a do_tsv_to_vcf (outfname a) (Some optarg))
  else if c =? ch "f" then
    Ok (set_names a (outfname a) (infname a) (tag a) (Some optarg) (output_type a))
  else if c =? ch "o" then
    Ok (set_names a optarg (infname a) (tag a) (ref_fname a) (output_type a))
  else if c =? ch "O" then
    let t := char_at optarg 0 in
    if Ascii.eqb t "b" then Ok (set_names a (outfname a) (infname a) (tag a) (ref_fname a) BCF_GZ)
    else if Ascii.eqb t "u" then Ok (set_names a (outfname a) (infname a) (tag a) (ref_fname a) BCF)
    else if Ascii.eqb t "z" then Ok (set_names a (outfname a) (infname a) (tag a) (ref_fname a) VCF_GZ)
    else if Ascii.eqb t "v" then Ok (set_names a (outfname a) (infname a) (tag a) (ref_fname a) VCF)
    else Fatal ErrOutputType
  else if c =? ch "h" then Fatal ErrUsage
  else if c =? ch "?" then Fatal ErrUsage
  else Fatal ErrUnknownArg.

Fixpoint parse_opts (a : args_t) (opts : list (Z * string)) : outcome args_t :=
  match opts with
  | [] => Ok a
  | (c, optarg) :: rest => a1 ← parse_opt a c optarg; parse_opts a1 rest
  end.

(** [main_vcfconvert] up to the call of [args->convert_func]: [opts] are
    the options in command-line order, [positional] is [argv[optind]]
    when there is one, [stdin_tty] is [isatty(fileno(stdin))]. *)
Definition main_vcfconvert (opts : list (Z * string)) (positional : option string)
    (stdin_tty : bool) : outcome args_t :=
  a ← parse_opts args_init opts;
  let inp := match positional with
             | None => if negb stdin_tty then Some "-" else infname a
             | Some f => Some f
             end in
  match inp, convert_func a with
  | Some _, Some _ =>
      Ok (set_names a (outfname a) inp (tag a) (ref_fname a) (output_type a))
  | _, _ => Fatal ErrUsage
  end.

(** The expression that the last [-e] or [-i] of a command line
    carries. *)
Definition is_filter_opt (o : Z * string) : bool := (fst o =? ch "e") || (fst o =? ch "i").

Definition last_filter_expr (opts : list (Z * string)) : option string :=
  last (map snd (List.filter is_filter_opt opts)).

Definition has_opt (c : Z) (opts : list (Z * string)) : bool :=
  existsb (fun o => fst o =? c) opts.

(** *** The output specifier *)

(** [while ( *t && *t!=',' ) t++]: the text before the first comma and,
    when there is a comma, the text after it. *)
Fixpoint scan_comma (s : string) : string * option string :=
  match s with
  | "" => ("", None)
  | String c rest =>
      if Ascii.eqb c "," then ("", Some rest)
      else let (before, after) := scan_comma rest in (String c before, after)
  end.

Definition strlen (s : string) : Z := Z.of_nat (String.length s).

(** [strcasecmp] of <strings.h>, in the "C" locale. *)
Fixpoint strcasecmp (a b : string) : Z :=
  match a, b with
  | "", "" => 0
  | "", String d _ => 0 - ch (tolower d)
  | String c _, "" => ch (tolower c)
  | String c a', String d b' =>
      if Ascii.eqb (tolower c) (tolower d) then strcasecmp a' b'
      else ch (tolower c) - ch (tolower d)
  end.

(** The pointer [s + k] into a C string. *)
Definition str_from (s : string) (k : Z) : string :=
  String.substring (Z.to_nat k) (String.length s - Z.to_nat k) s.

(** The file names and the compression flag that [vcf_to_gensample]
    derives from [args->outfname]: [(gen_fname, sample_fname,
    is_compressed)]. *)
Definition output_names (outfname : string) : string * string * Z :=
  match scan_comma outfname with
  | (gen_fname, Some sample_fname) =>
      let is_compressed :=
        if (strlen gen_fname <? 3)
           || negb (strcasecmp ".gz" (str_from gen_fname (strlen gen_fname - 3)) =? 0)
        then 0 else 1 in
      (gen_fname, sample_fname, is_compressed)
  | (_, None) => (outfname ++ ".gen.gz", outfname ++ ".samples", 1)
  end.

Fixpoint no_comma (s : string) : bool :=
  match s with
  | "" => true
  | String c rest => negb (Ascii.eqb c ",") && no_comma rest
  end.

(** "Ends in a .gz suffix", as the specification words it. *)
Definition ends_in_gz (path : string) : Prop := exists stem, path = stem ++ ".gz".

(** *** The collaborators *)

(** What [open_vcf] and [vcf_to_gensample] use of htslib, [filter.h],
    [convert.h] and <stdio.h>.  A header is seen through its sample
    names, a record through [n_allele]; the other operations are
    given by their results. *)
Class Extern : Type := {
  bcf_hdr_t : Type;
  bcf1_t : Type;
  filter_t : Type;
  convert_t : Type;
  BGZF : Type;
  hdr_samples : bcf_hdr_t -> list string;         (* [header->samples] *)
  n_allele : bcf1_t -> Z;                         (* [line->n_allele] *)
  bcf_sr_set_regions : string -> Z -> Z;
  bcf_sr_set_targets : string -> Z -> Z;
  (* the header of the reader added for an input name; [None] when
     [bcf_sr_add_reader] returns 0 *)
  bcf_sr_add_reader : option string -> option bcf_hdr_t;
  (* the return value, and the header as the call leaves it *)
  bcf_hdr_set_samples : bcf_hdr_t -> string -> Z -> Z * bcf_hdr_t;
  hts_readlist : string -> Z -> option (list string);
  bcf_hdr_id2int : bcf_hdr_t -> string -> Z;      (* for [BCF_DT_SAMPLE] *)
  filter_init : bcf_hdr_t -> string -> filter_t;
  filter_test : filter_t -> bcf1_t -> Z;
  convert_init : bcf_hdr_t -> option (list Z) -> Z -> string -> convert_t;
  convert_line : convert_t -> bcf1_t -> string;   (* the text put in [str] *)
  fopen_w : string -> bool;                       (* [fopen(path,"w")] is not null *)
  bgzf_open : string -> string -> BGZF;
  bgzf_write : BGZF -> string -> Z * BGZF;
  bgzf_close : BGZF -> Z
}.

Section Gensample.
Context `{Extern}.

Definition bcf_hdr_nsamples (h : bcf_hdr_t) : Z := Z.of_nat (length (hdr_samples h)).

(** What [open_vcf] stores in [args]: the header of the first reader,
    the site filter when there is an expression, and the converter. *)
Record session : Type := Session {
  header : bcf_hdr_t;
  filter : option filter_t;
  convert : convert_t
}.

(** The sample part of [open_vcf]: the header after the selection, and
    the array [samples] with its length [nsamples]. *)
Definition select_samples (a : args_t) (h : bcf_hdr_t)
  : outcome (bcf_hdr_t * option (list Z) * Z) :=
  match sample_list a with
  | Some sl =>
      if negb (String.eqb "-" sl) then
        let (ret, h1) := bcf_hdr_set_samples h sl (sample_is_file a) in
        if ret <? 0 then Fatal ErrSampleParse
        else if 0 <? ret then Fatal (ErrSampleMissing ret)
        else if negb (Ascii.eqb (char_at sl 0) "^") then
          match hts_readlist sl (sample_is_file a) with
          | None => Fatal ErrReadList
          | Some smpls =>
              let n := Z.of_nat (length smpls) in
              if negb (n =? bcf_hdr_nsamples h1) then Fatal ErrSampleCount
              else Ok (h1, Some (map (bcf_hdr_id2int h1) smpls), bcf_hdr_nsamples h1)
          end
        else Ok (h1, None, 0)
      else Ok (h, None, 0)
  | None => Ok (h, None, 0)
  end.

(** [open_vcf(args, format_str)].  The header [args->header] is the
    object that [bcf_hdr_set_samples] restricts, so what follows sees
    the restricted header.  The filter built before the header is known
    is replaced by the one built at the end and is left out. *)
Definition open_vcf (a : args_t) (format_str : string) : outcome session :=
  _ ← match regions_list a with
      | Some l => if bcf_sr_set_regions l (regions_is_file a) <? 0
                  then Fatal ErrRegions else Ok tt
      | None => Ok tt
      end;
  _ ← match targets_list a with
      | Some l => if bcf_sr_set_targets l (targets_is_file a) <? 0
                  then Fatal ErrTargets else Ok tt
      | None => Ok tt
      end;
  h ← match bcf_sr_add_reader (infname a) with
      | None => Fatal ErrOpenInput
      | Some h => Ok h
      end;
  '(h1, samples, nsamples) ← select_samples a h;
  Ok (Session h1
        (match filter_str a with
         | Some expr => Some (filter_init h1 expr)
         | None => None
         end)
        (convert_init h1 samples nsamples format_str)).

(** *** The site filter *)

(** The lines [if ( args->filter ) { ... if ( !pass ) continue; }] of
    the site loop: [true] when the site goes on to the conversion. *)
Definition site_passes (flt : option filter_t) (logic : Z) (line : bcf1_t) : bool :=
  match flt with
  | None => true
  | Some f =>
      let pass := filter_test f line in
      let pass := if negb (Z.land logic FLT_EXCLUDE =? 0)
                  then (if negb (pass =? 0) then 0 else 1)
                  else pass in
      negb (pass =? 0)
  end.

(** *** The two output streams *)

(** What happens on the two streams and at the source, in order. *)
Inductive event : Type :=
| EvSampleOpen (path : string)
| EvSamplePrint (text : string)
| EvSampleClose
| EvGenOpen (path mode : string)
| EvNextLine (line : bcf1_t)
| EvGenWrite (data : string)
| EvGenClose.

Definition is_sample_event (e : event) : bool :=
  match e with
  | EvSampleOpen _ | EvSamplePrint _ | EvSampleClose => true
  | _ => false
  end.

Definition is_next_line (e : event) : bool :=
  match e with
  | EvNextLine _ => true
  | _ => false
  end.

(** The events on the two streams: the trace without the reads. *)
Definition stream_events (tr : list event) : list event :=
  List.filter (fun e => negb (is_next_line e)) tr.

(** The sample file, lines 167 to 172. *)
Definition sample_file_events (h : bcf_hdr_t) (sample_fname : string) : list event :=
  EvSampleOpen sample_fname
  :: EvSamplePrint ("ID_1 ID_2 missing" ++ nl ++ "0 0 0" ++ nl)
  :: (map (fun smpl => EvSamplePrint (smpl ++ " " ++ smpl ++ " 0" ++ nl)) (hdr_samples h)
      ++ [EvSampleClose])%list.

(** One turn of [while ( bcf_sr_next_line(args->files) )] on the record
    [line], with the genotype stream [out]: the events of the turn and
    the stream after it. *)
Definition gensample_site (s : session) (logic : Z) (out : BGZF) (line : bcf1_t)
  : list event * outcome BGZF :=
  if n_allele line =? 1 then ([EvNextLine line], Ok out)
  else if negb (site_passes (filter s) logic line) then ([EvNextLine line], Ok out)
  else
    let str := convert_line (convert s) line in
    if negb (strlen str =? 0) then
      let (ret, out1) := bgzf_write out str in
      ([EvNextLine line; EvGenWrite str],
       if negb (ret =? strlen str) then Fatal ErrWriteGen else Ok out1)
    else ([EvNextLine line], Ok out).

Fixpoint gensample_sites (s : session) (logic : Z) (out : BGZF) (sites : list bcf1_t)
  : list event * outcome BGZF :=
  match sites with
  | [] => ([], Ok out)
  | line :: rest =>
      match gensample_site s logic out line with
      | (tr, Ok out1) =>
          let (tr', r) := gensample_sites s logic out1 rest in ((tr ++ tr')%list, r)
      | (tr, Fatal e) => (tr, Fatal e)
      end
  end.

(** The format string built at the start of [vcf_to_gensample]. *)
Definition gensample_format (tg : option string) : outcome string :=
  let head := "%CHROM:%POS\_%REF\_%FIRST_ALT %_CHROM_POS_ID %POS %REF %FIRST_ALT" in
  match tg with
  | None => Ok (head ++ "%_GT_TO_PROB3" ++ nl)
  | Some t =>
      if String.eqb t "GT" then Ok (head ++ "%_GT_TO_PROB3" ++ nl)
      else if String.eqb t "PL" then Ok (head ++ "%_PL_TO_PROB3" ++ nl)
      else Fatal ErrTag
  end.

(** [vcf_to_gensample(args)], where [sites] are the records that
    [bcf_sr_next_line] delivers, in order: the trace of events and the
    way the function ends. *)
Definition vcf_to_gensample (a : args_t) (sites : list bcf1_t) : list event * outcome unit :=
  match gensample_format (tag a) ≫= open_vcf a with
  | Fatal e => ([], Fatal e)
  | Ok s =>
      let '(gen_fname, sample_fname, is_compressed) := output_names (outfname a) in
      if negb (fopen_w sample_fname) then ([], Fatal ErrWriteSamples)
      else
        let out := bgzf_open gen_fname (if negb (is_compressed =? 0) then "w" else "wu") in
        let tr0 := (sample_file_events (header s) sample_fname
                    ++ [EvGenOpen gen_fname (if negb (is_compressed =? 0) then "w" else "wu")])%list in
        match gensample_sites s (filter_logic a) out sites with
        | (tr, Fatal e) => ((tr0 ++ tr)%list, Fatal e)
        | (tr, Ok out1) =>
            ((tr0 ++ tr ++ [EvGenClose])%list,
             if negb (bgzf_close out1 =? 0) then Fatal ErrCloseGen else Ok tt)
        end
  end.

End Gensample.

Section Streams.
Context `{Extern}.

(** A record that the site loop hands to the converter: more than the
    reference allele, and let through by the filter. *)
Definition kept (s : session) (logic : Z) (line : bcf1_t) : bool :=
  negb (n_allele line =? 1) && site_passes (filter s) logic line.

(** The data written to the genotype stream, and the records read. *)
Definition gen_writes (tr : list event) : list string :=
  flat_map (fun e => match e with EvGenWrite data => [data] | _ => [] end) tr.

Definition reads (tr : list event) : list bcf1_t :=
  flat_map (fun e => match e with EvNextLine line => [line] | _ => [] end) tr.

End Streams.

(** The argument of the last option, among those with a code in
    [codes], and the conversion that the last of [-g] and [--tsv2vcf]
    selects. *)
Definition last_arg (codes : list Z) (opts : list (Z * string)) : option string :=
  last (map snd (List.filter (fun o => existsb (Z.eqb (fst o)) codes) opts)).

Definition last_func (opts : list (Z * string)) : option convert_func_t :=
  last (flat_map (fun o => if fst o =? ch "g" then [do_vcf_to_gensample]
                           else if fst o =? 2 then [do_tsv_to_vcf] else []) opts).

(** A set of collaborators to run the definitions on: records are
    their allele counts, a header is its list of sample names, the
    selection keeps the listed names, the filter is a threshold on the
    allele count and the converter prints a fixed line. *)
Definition split_names (s : string) : list string :=
  (fix go (s : string) (acc : string) : list string :=
     match s with
     | "" => [acc]
     | String c rest =>
         if Ascii.eqb c "," then acc :: go rest "" else go rest (acc ++ String c "")
     end) s "".

#[local] Instance demo : Extern := {|
  bcf_hdr_t := list string;
  bcf1_t := Z;
  filter_t := Z;
  convert_t := unit;
  BGZF := list string;
  hdr_samples := fun h => h;
  n_allele := fun line => line;
  bcf_sr_set_regions := fun _ _ => 0;
  bcf_sr_set_targets := fun _ _ => 0;
  bcf_sr_add_reader := fun name => match name with
                                   | Some _ => Some ["s1"; "s2"; "s3"]
                                   | None => None
                                   end;
  bcf_hdr_set_samples := fun h l _ =>
    (0, List.filter (fun smpl => existsb (String.eqb smpl) (split_names l)) h);
  hts_readlist := fun l _ => Some (split_names l);
  bcf_hdr_id2int := fun h smpl => 0;
  filter_init := fun _ expr => strlen expr;
  filter_test := fun f line => if f <? line then 1 else 0;
  convert_init := fun _ _ _ _ => tt;
  convert_line := fun _ line => "site" ++ nl;
  fopen_w := fun _ => true;
  bgzf_open := fun _ _ => [];
  bgzf_write := fun out data => (strlen data, (out ++ [data])%list);
  bgzf_close := fun _ => 0
|}.

(** The same collaborators with a genotype stream that takes no data. *)
#[local] Instance demo_short_write : Extern := {|
  bcf_hdr_t := list string;
  bcf1_t := Z;
  filter_t := Z;
  convert_t := unit;
  BGZF := list string;
  hdr_samples := fun h => h;
  n_allele := fun line => line;
  bcf_sr_set_regions := fun _ _ => 0;
  bcf_sr_set_targets := fun _ _ => 0;
  bcf_sr_add_reader := fun name => match name with
                                   | Some _ => Some ["s1"; "s2"; "s3"]
                                   | None => None
                                   end;
  bcf_hdr_set_samples := fun h l _ =>
    (0, List.filter (fun smpl => existsb (String.eqb smpl) (split_names l)) h);
  hts_readlist := fun l _ => Some (split_names l);
  bcf_hdr_id2int := fun h smpl => 0;
  filter_init := fun _ expr => strlen expr;
  filter_test := fun f line => if f <? line then 1 else 0;
  convert_init := fun _ _ _ _ => tt;
  convert_line := fun _ line => "site" ++ nl;
  fopen_w := fun _ => true;
  bgzf_open := fun _ _ => [];
  bgzf_write := fun out data => (0, out);
  bgzf_close := fun _ => 0
|}.

End Vcf.

(** * Properties *)

Module TsvFacts.
Import Tsv.

Lemma int_incr_neq (x : Z) : int_incr x <> x.
Proof.
  unfold int_incr, int_wrap. intros H.
  pose proof (Z.mod_pos_bound (x + 1 + 2147483648) 4294967296 eq_refl) as Hb.
  assert (Hx : (x + 1 + 2147483648) mod 4294967296 = x + 2147483648) by lia.
  pose proof (Z.div_mod (x + 1 + 2147483648) 4294967296 ltac:(lia)) as Hd.
  rewrite Hx in Hd. lia.
Qed.

Lemma int_incr_small (x : Z) : 0 <= x < 2147483647 -> int_incr x = x + 1.
Proof.
  intros H. unfold int_incr, int_wrap.
  rewrite Z.mod_small by lia. lia.
Qed.

Lemma acgt_to_5_range (c : ascii) : 0 <= acgt_to_5 c < 5.
Proof. unfold acgt_to_5. repeat case_match; lia. Qed.

Lemma code0_range tok : 0 <= code0 tok < 5.
Proof. apply acgt_to_5_range. Qed.

Lemma code1_range tok : 0 <= code1 tok < 5.
Proof. unfold code1. case_match; [apply code0_range | apply acgt_to_5_range]. Qed.

(** A usable call takes the decoding branch of [tsv_setter_aa1]. *)
Lemma aa1_usable st tok ref off :
  usable tok = true ->
  tsv_setter_aa1 st tok ref off =
    (let (alleles, nals) := assign (assign (st_alleles st, st_nals st) (code0 tok)) (code1 tok) in
     (0, AaState (tally (st_n st) ref (code0 tok) (code1 tok)) alleles nals
          (<[S off := if is_nul (char_at (ss tok) 1) then bcf_int32_vector_end
                       else bcf_gt_unphased (al_get alleles (code1 tok))]>
             (<[off := bcf_gt_unphased (al_get alleles (code0 tok))]> (st_gts st))))).
Proof.
  unfold usable, marker, tsv_setter_aa1. intros H.
  apply andb_true_iff in H as [Hlen Hm].
  apply Z.leb_le in Hlen.
  apply negb_true_iff in Hm. apply orb_false_iff in Hm as [Hm HD].
  apply orb_false_iff in Hm as [Hm HI].
  destruct (2 <? se_ss tok) eqn:E; [apply Z.ltb_lt in E; lia |].
  rewrite Hm, HI, HD. reflexivity.
Qed.

Lemma aa1_ret st tok ref off :
  fst (tsv_setter_aa1 st tok ref off) =
    if 2 <? se_ss tok then -1 else if marker tok then -2 else 0.
Proof.
  unfold tsv_setter_aa1, marker.
  destruct (2 <? se_ss tok); [reflexivity |].
  destruct (Ascii.eqb (char_at (ss tok) 0) "-"); [reflexivity |].
  destruct (Ascii.eqb (char_at (ss tok) 0) "I"); [reflexivity |].
  destruct (Ascii.eqb (char_at (ss tok) 0) "D"); [reflexivity |].
  simpl. destruct (assign _ _). reflexivity.
Qed.

Lemma aa1_unusable st tok ref off :
  usable tok = false -> snd (tsv_setter_aa1 st tok ref off) = st.
Proof.
  unfold usable, marker, tsv_setter_aa1. intros H.
  destruct (2 <? se_ss tok) eqn:E; [reflexivity |].
  apply Z.ltb_ge in E. apply Z.leb_le in E. rewrite E in H. simpl in H.
  apply negb_false_iff in H.
  destruct (Ascii.eqb (char_at (ss tok) 0) "-"); [reflexivity |].
  destruct (Ascii.eqb (char_at (ss tok) 0) "I"); [reflexivity |].
  destruct (Ascii.eqb (char_at (ss tok) 0) "D"); [reflexivity |].
  discriminate.
Qed.

(** The table after [assign]: a table of five slots keeps its length,
    and an index that is set stays what it is. *)
Ltac five_slots al H :=
  destruct al as [|? [|? [|? [|? [|? [|? ?]]]]]]; simpl in H; try lia; clear H.

Ltac code_cases a H :=
  assert (a = 0 \/ a = 1 \/ a = 2 \/ a = 3 \/ a = 4) as [->|[->|[->|[->| ->]]]] by lia;
  clear H.

Lemma assign_length al nals a :
  length (fst (assign (al, nals) a)) = length al.
Proof.
  unfold assign, al_set. case_match; simpl; [apply length_insert | reflexivity].
Qed.

Lemma assign_stable al nals a b :
  length al = 5%nat -> 0 <= b < 5 -> 0 <= al_get al b ->
  al_get (fst (assign (al, nals) a)) b = al_get al b.
Proof.
  intros Hl Hb Hge. unfold assign.
  destruct (al_get al a <? 0) eqn:E; [| reflexivity].
  apply Z.ltb_lt in E. simpl.
  destruct (decide (a = b)) as [-> | Hne]; [lia |].
  destruct (decide (0 <= a < 5)) as [Ha | Ha].
  - five_slots al Hl. code_cases a Ha; code_cases b Hb; try lia; reflexivity.
  - unfold al_get, al_set in *.
    destruct (decide (a < 0)) as [Hneg | Hpos].
    + replace (Z.to_nat a) with 0%nat in * by lia.
      replace a with (Z.of_nat 0 + a) in Hneg by lia.
      five_slots al Hl. code_cases b Hb; simpl in *; try reflexivity. lia.
    + rewrite list_insert_ge by lia. reflexivity.
Qed.

Lemma assign_set al nals a :
  length al = 5%nat -> 0 <= a < 5 -> 0 <= nals ->
  0 <= al_get (fst (assign (al, nals) a)) a.
Proof.
  intros Hl Ha Hn. unfold assign.
  destruct (al_get al a <? 0) eqn:E; simpl.
  - five_slots al Hl. code_cases a Ha; cbv [al_get al_set]; simpl; lia.
  - apply Z.ltb_ge in E. exact E.
Qed.

(** *** The decoded genotype slots *)

(** C3, as the code has it.  For a call that is decoded, with the table
    of the site (five slots, [nals] between 0 and 5) and a buffer that holds
    the two slots: the first slot is the unphased index of the first
    character; when the character after it is the end of the line, the
    second slot is the vector-end sentinel (a haploid call) and the call
    is tallied with [a1 = a0]; when a second character is there, the
    second slot is the unphased index of that character, the two slots
    standing in the order of the text.  Indices already in the table
    are not changed by the call, and the indices used are not negative. *)
Theorem decoded_slots st tok ref off :
  usable tok = true ->
  length (st_alleles st) = 5%nat ->
  0 <= st_nals st <= 5 ->
  (S off < length (st_gts st))%nat ->
  let st' := snd (tsv_setter_aa1 st tok ref off) in
  let idx := al_get (st_alleles st') in
  (forall a, 0 <= a < 5 -> 0 <= al_get (st_alleles st) a -> idx a = al_get (st_alleles st) a)
  /\ 0 <= idx (code0 tok)
  /\ st_gts st' !! off = Some (bcf_gt_unphased (idx (code0 tok)))
  /\ (char_at (ss tok) 1 = NUL ->
        st_gts st' !! S off = Some bcf_int32_vector_end /\ code1 tok = code0 tok)
  /\ (char_at (ss tok) 1 <> NUL ->
        0 <= idx (acgt_to_5 (toupper (char_at (ss tok) 1)))
        /\ st_gts st' !! S off
           = Some (bcf_gt_unphased (idx (acgt_to_5 (toupper (char_at (ss tok) 1)))))).
Proof.
  intros Hu Hl Hn Hoff. rewrite (aa1_usable _ _ _ _ Hu).
  pose proof (code0_range tok) as R0. pose proof (code1_range tok) as R1.
  pose proof (assign_length (st_alleles st) (st_nals st) (code0 tok)) as L1.
  destruct (assign (st_alleles st, st_nals st) (code0 tok)) as [al1 n1] eqn:E1.
  pose proof (assign_length al1 n1 (code1 tok)) as L2.
  destruct (assign (al1, n1) (code1 tok)) as [al2 n2] eqn:E2.
  simpl in L1, L2. rewrite Hl in L1. rewrite L1 in L2. simpl.
  assert (S1 : forall a, 0 <= a < 5 -> 0 <= al_get (st_alleles st) a ->
                         al_get al1 a = al_get (st_alleles st) a).
  { intros a Ha Hge.
    pose proof (assign_stable (st_alleles st) (st_nals st) (code0 tok) a Hl Ha Hge) as T.
    rewrite E1 in T. exact T. }
  assert (S2 : forall a, 0 <= a < 5 -> 0 <= al_get al1 a -> al_get al2 a = al_get al1 a).
  { intros a Ha Hge.
    pose proof (assign_stable al1 n1 (code1 tok) a L1 Ha Hge) as T.
    rewrite E2 in T. exact T. }
  assert (P0 : 0 <= al_get al1 (code0 tok)).
  { pose proof (assign_set (st_alleles st) (st_nals st) (code0 tok) Hl R0 ltac:(lia)) as T.
    rewrite E1 in T. exact T. }
  assert (Q0 : 0 <= al_get al2 (code0 tok)) by (rewrite S2; auto).
  assert (Hn1 : 0 <= n1).
  { unfold assign in E1. destruct (al_get (st_alleles st) (code0 tok) <? 0);
      inversion E1; subst; [| lia].
    rewrite int_incr_small; lia. }
  assert (P1 : 0 <= al_get al2 (code1 tok)).
  { pose proof (assign_set al1 n1 (code1 tok) L1 R1 Hn1) as T.
    rewrite E2 in T. exact T. }
  split; [| split; [| split; [| split]]].
  - intros a Ha Hge. rewrite S2, S1; auto. rewrite S1; auto.
  - exact Q0.
  - rewrite list_lookup_insert_ne by lia.
    rewrite list_lookup_insert_eq by lia. reflexivity.
  - intros H. unfold code1, is_nul. rewrite H. simpl. split; [| reflexivity].
    rewrite list_lookup_insert_eq; [reflexivity |].
    rewrite length_insert. lia.
  - intros H.
    assert (Hz : is_nul (char_at (ss tok) 1) = false).
    { unfold is_nul. apply Ascii.eqb_neq. exact H. }
    unfold code1 in P1. rewrite Hz in *. split; [exact P1 |].
    rewrite list_lookup_insert_eq.
    + unfold code1. rewrite Hz. reflexivity.
    + rewrite length_insert. lia.
Qed.

Lemma decoded_slots_witness :
  st_gts (snd (tsv_setter_aa1
                 (AaState n_zero (site_table 1) 1 [bcf_int32_vector_end; bcf_int32_vector_end])
                 (Cursor "AC" 2) 1 0)) !! 0%nat
  = Some (bcf_gt_unphased
            (al_get (st_alleles (snd (tsv_setter_aa1
                 (AaState n_zero (site_table 1) 1 [bcf_int32_vector_end; bcf_int32_vector_end])
                 (Cursor "AC" 2) 1 0))) (code0 (Cursor "AC" 2)))).
Proof.
  refine (proj1 (proj2 (proj2
    (decoded_slots
       (AaState n_zero (site_table 1) 1 [bcf_int32_vector_end; bcf_int32_vector_end])
       (Cursor "AC" 2) 1 0 _ _ _ _))));
    [reflexivity | reflexivity | simpl; lia | simpl; lia].
Defined.

(** C3, as stated, fails: at a site with reference C the call "A" that
    ends its line is stored as index 1 followed by the vector-end
    sentinel, so the two positions do not hold the same allele index. *)
Lemma single_character_call_is_haploid :
  ~ same_index_slots
      (st_gts (snd (tsv_setter_aa1
         (AaState n_zero (site_table 1) 1 [bcf_int32_vector_end; bcf_int32_vector_end])
         (Cursor "A" 1) 1 0)) !! 0%nat)
      (st_gts (snd (tsv_setter_aa1
         (AaState n_zero (site_table 1) 1 [bcf_int32_vector_end; bcf_int32_vector_end])
         (Cursor "A" 1) 1 0)) !! 1%nat).
Proof.
  vm_compute. intros [idx [_ H]]. discriminate H.
Qed.

(** The order of a two-character call is kept: "AC" and "CA" at a site
    with reference C give the slots 1,0 and 0,1. *)
Example two_character_call_keeps_order :
  st_gts (snd (tsv_setter_aa1 (AaState n_zero (site_table 1) 1
                                 [bcf_int32_vector_end; bcf_int32_vector_end])
                              (Cursor "AC" 2) 1 0))
    = [bcf_gt_unphased 1; bcf_gt_unphased 0]
  /\ st_gts (snd (tsv_setter_aa1 (AaState n_zero (site_table 1) 1
                                    [bcf_int32_vector_end; bcf_int32_vector_end])
                                 (Cursor "CA" 2) 1 0))
    = [bcf_gt_unphased 0; bcf_gt_unphased 1].
Proof. split; reflexivity. Qed.

(** *** The genotype-class tally *)

(** C4.  A call that is decoded increments exactly one of the four class
    counters and leaves the other three, [total] and [skipped] as they
    were; the class is determined by the two allele codes and the
    reference code: both equal to the reference, hom-ref; exactly one
    equal to it, het ref/alt; both equal and not the reference, hom-alt;
    different from each other and from the reference, het non-ref. *)
Theorem tally_one_class st tok ref off :
  fst (tsv_setter_aa1 st tok ref off) = 0 ->
  exists k : gt_class,
    (forall j, counter j (st_n (snd (tsv_setter_aa1 st tok ref off)))
               = if gt_class_eqb j k then int_incr (counter j (st_n st))
                 else counter j (st_n st))
    /\ counter k (st_n (snd (tsv_setter_aa1 st tok ref off))) <> counter k (st_n st)
    /\ total (st_n (snd (tsv_setter_aa1 st tok ref off))) = total (st_n st)
    /\ skipped (st_n (snd (tsv_setter_aa1 st tok ref off))) = skipped (st_n st)
    /\ (k = HomRef <-> code0 tok = ref /\ code1 tok = ref)
    /\ (k = HetRefAlt <->
          (code0 tok = ref /\ code1 tok <> ref) \/ (code0 tok <> ref /\ code1 tok = ref))
    /\ (k = HomAlt <-> code0 tok = code1 tok /\ code0 tok <> ref)
    /\ (k = HetNonRef <->
          code0 tok <> code1 tok /\ code0 tok <> ref /\ code1 tok <> ref).
Proof.
  intros H. rewrite aa1_ret in H.
  assert (Hu : usable tok = true).
  { unfold usable. destruct (2 <? se_ss tok) eqn:E; [discriminate |].
    apply Z.ltb_ge in E. apply Z.leb_le in E. rewrite E.
    destruct (marker tok); [discriminate | reflexivity]. }
  rewrite (aa1_usable _ _ _ _ Hu).
  destruct (assign (assign _ _) _) as [al nals]. simpl.
  generalize (code0 tok) (code1 tok). intros a0 a1.
  unfold tally.
  destruct (Z.eqb_spec ref a0) as [E0 | E0]; destruct (Z.eqb_spec ref a1) as [E1 | E1]; simpl;
    [ exists HomRef | exists HetRefAlt | exists HetRefAlt | ].
  4: destruct (Z.eqb_spec a0 a1) as [E2 | E2]; [ exists HomAlt | exists HetNonRef ].
  all: split; [intros []; reflexivity |].
  all: split; [apply int_incr_neq |].
  all: simpl; repeat split; try discriminate; try reflexivity; try lia.
  all: intros; try lia; intuition (try discriminate; try lia).
Qed.

Lemma tally_one_class_witness :
  exists k : gt_class,
    counter k (st_n (snd (tsv_setter_aa1
       (AaState n_zero (site_table 1) 1 [bcf_int32_vector_end; bcf_int32_vector_end])
       (Cursor "CA" 2) 1 0))) <> 0.
Proof.
  destruct (tally_one_class
              (AaState n_zero (site_table 1) 1 [bcf_int32_vector_end; bcf_int32_vector_end])
              (Cursor "CA" 2) 1 0 eq_refl) as [k [_ [H _]]].
  exists k. destruct k; exact H.
Defined.

(** *** The sample loop *)

(** One turn of the loop on the next pending call. *)
Lemma aa_samples_head todo i tsv st iref x rest :
  pending i tsv = x :: rest ->
  exists tsv1,
    pending (S i) tsv1 = rest
    /\ aa_samples (S todo) i tsv st iref =
         (let (ret, st1) := tsv_setter_aa1 st x iref (2 * i)%nat in
          if ret =? -1 then Fatal ErrParseSite
          else if ret =? -2 then Ok (-2, tsv1, st1)
          else aa_samples todo (S i) tsv1 st1 iref).
Proof.
  intros Hp. destruct i as [| i]; simpl in Hp.
  - exists tsv. inversion Hp; subst. split; [reflexivity |].
    destruct tsv as [c up]. reflexivity.
  - exists (TsvT x rest). split; [reflexivity |].
    destruct tsv as [c up]. simpl in Hp. subst up. reflexivity.
Qed.

Lemma aa_samples_exhausted todo i tsv st iref :
  pending (S i) tsv = [] ->
  aa_samples (S todo) (S i) tsv st iref = Fatal ErrTooFewColumns.
Proof.
  destruct tsv as [c up]. simpl. intros ->. reflexivity.
Qed.

(** The loop runs through a prefix of usable calls. *)
Lemma aa_samples_reach iref good : forall todo i tsv st rest,
  pending i tsv = (good ++ rest)%list ->
  Forall (fun c => usable c = true) good ->
  exists tsv1,
    pending (i + length good) tsv1 = rest
    /\ aa_samples (length good + todo) i tsv st iref
       = aa_samples todo (i + length good) tsv1 (decode_calls good i st iref) iref.
Proof.
  induction good as [| x good IH]; intros todo i tsv st rest Hp Hu.
  - exists tsv. rewrite Nat.add_0_r. split; [exact Hp | reflexivity].
  - inversion Hu as [| ? ? Hx Hgood]; subst.
    destruct (aa_samples_head (length good + todo) i tsv st iref x (good ++ rest)%list Hp)
      as [tsv1 [Hp1 Heq]].
    destruct (IH todo (S i) tsv1 (snd (tsv_setter_aa1 st x iref (2 * i)%nat)) rest Hp1 Hgood)
      as [tsv2 [Hp2 Heq2]].
    exists tsv2. simpl length.
    replace (i + S (length good))%nat with (S i + length good)%nat by lia.
    split; [exact Hp2 |].
    change (S (length good) + todo)%nat with (S (length good + todo)).
    rewrite Heq.
    pose proof (aa1_ret st x iref (2 * i)%nat) as Hr.
    unfold usable in Hx. apply andb_true_iff in Hx as [Hlen Hm].
    apply Z.leb_le in Hlen. apply negb_true_iff in Hm.
    destruct (2 <? se_ss x) eqn:E; [apply Z.ltb_lt in E; lia |].
    rewrite Hm in Hr. cbn [decode_calls].
    destruct (tsv_setter_aa1 st x iref (2 * i)%nat) as [ret st1].
    cbn [fst snd] in Hr, Heq2 |- *. subst ret.
    change (0 =? -1) with false. change (0 =? -2) with false. cbv iota.
    exact Heq2.
Qed.

(** The loop ends on the first call that is not usable: a fatal error
    for a call of more than two characters, the value -2 for a marker. *)
Lemma aa_samples_long iref good x rest todo tsv st :
  pending 0 tsv = (good ++ x :: rest)%list ->
  Forall (fun c => usable c = true) good ->
  2 < se_ss x ->
  aa_samples (length good + S todo) 0 tsv st iref = Fatal ErrParseSite.
Proof.
  intros Hp Hgood Hx.
  destruct (aa_samples_reach iref good (S todo) 0 tsv st (x :: rest) Hp Hgood)
    as [tsv1 [Hp1 ->]].
  destruct (aa_samples_head todo (0 + length good) tsv1 (decode_calls good 0 st iref)
              iref x rest Hp1) as [tsv2 [_ ->]].
  pose proof (aa1_ret (decode_calls good 0 st iref) x iref (2 * (0 + length good))%nat) as Hr.
  destruct (2 <? se_ss x) eqn:E; [| apply Z.ltb_ge in E; lia].
  destruct (tsv_setter_aa1 _ x iref _) as [ret st1]. cbn [fst] in Hr. subst ret.
  reflexivity.
Qed.

Lemma aa_samples_marker iref good x rest todo tsv st :
  pending 0 tsv = (good ++ x :: rest)%list ->
  Forall (fun c => usable c = true) good ->
  se_ss x <= 2 -> marker x = true ->
  exists tsv1,
    aa_samples (length good + S todo) 0 tsv st iref
    = Ok (-2, tsv1, decode_calls good 0 st iref).
Proof.
  intros Hp Hgood Hlen Hm.
  destruct (aa_samples_reach iref good (S todo) 0 tsv st (x :: rest) Hp Hgood)
    as [tsv1 [Hp1 ->]].
  destruct (aa_samples_head todo (0 + length good) tsv1 (decode_calls good 0 st iref)
              iref x rest Hp1) as [tsv2 [_ ->]].
  exists tsv2.
  pose proof (aa1_ret (decode_calls good 0 st iref) x iref (2 * (0 + length good))%nat) as Hr.
  assert (Hs : usable x = false) by (unfold usable; rewrite Hm; apply andb_false_r).
  pose proof (aa1_unusable (decode_calls good 0 st iref) x iref
                (2 * (0 + length good))%nat Hs) as Hst.
  destruct (2 <? se_ss x) eqn:E; [apply Z.ltb_lt in E; lia |].
  rewrite Hm in Hr.
  destruct (tsv_setter_aa1 _ x iref _) as [ret st1]. cbn [fst snd] in Hr, Hst. subst.
  reflexivity.
Qed.

Lemma aa_samples_done iref good rest tsv st :
  pending 0 tsv = (good ++ rest)%list ->
  Forall (fun c => usable c = true) good ->
  exists tsv1,
    aa_samples (length good) 0 tsv st iref = Ok (0, tsv1, decode_calls good 0 st iref).
Proof.
  intros Hp Hgood.
  destruct (aa_samples_reach iref good 0 0 tsv st rest Hp Hgood) as [tsv1 [_ Heq]].
  rewrite Nat.add_0_r in Heq. rewrite Heq. exists tsv1. reflexivity.
Qed.

Lemma tsv_to_vcf_lines_app g p nsmpl before after : forall run,
  tsv_to_vcf_lines g p nsmpl run (before ++ after)
  = (tsv_to_vcf_lines g p nsmpl run before ≫= fun run1 => tsv_to_vcf_lines g p nsmpl run1 after).
Proof.
  induction before as [| l before IH]; intros run; [reflexivity |].
  simpl. destruct (tsv_to_vcf_line g p nsmpl run l) as [run1 | e]; simpl; [apply IH | reflexivity].
Qed.

(** Decoding calls changes neither [total] nor [skipped]. *)
Lemma tally_total_skipped n ref a0 a1 :
  total (tally n ref a0 a1) = total n /\ skipped (tally n ref a0 a1) = skipped n.
Proof. unfold tally. repeat case_match; split; reflexivity. Qed.

Lemma aa1_total_skipped st tok ref off :
  total (st_n (snd (tsv_setter_aa1 st tok ref off))) = total (st_n st)
  /\ skipped (st_n (snd (tsv_setter_aa1 st tok ref off))) = skipped (st_n st).
Proof.
  destruct (usable tok) eqn:Hu.
  - rewrite (aa1_usable _ _ _ _ Hu). destruct (assign (assign _ _) _). simpl.
    apply tally_total_skipped.
  - rewrite (aa1_unusable _ _ _ _ Hu). split; reflexivity.
Qed.

Lemma decode_calls_total_skipped iref calls : forall i st,
  total (st_n (decode_calls calls i st iref)) = total (st_n st)
  /\ skipped (st_n (decode_calls calls i st iref)) = skipped (st_n st).
Proof.
  induction calls as [| c calls IH]; intros i st; [split; reflexivity |].
  cbn [decode_calls].
  destruct (IH (S i) (snd (tsv_setter_aa1 st c iref (2 * i)%nat))) as [Ht Hs].
  destruct (aa1_total_skipped st c iref (2 * i)%nat) as [Ht1 Hs1].
  split; congruence.
Qed.

(** *** Calls of more than two characters *)

(** C5.  A call of more than two characters makes [tsv_setter_aa1]
    return -1 without touching its state, and the row loop of
    [tsv_to_vcf] then ends in the fatal error "Error parsing the site":
    when the rows before it were processed and the calls before it on
    its row were decoded, the run over any input that contains the row
    is that fatal error, whatever follows and whatever [tsv_parse]
    makes of setter results.  Calls of at most two characters never
    produce -1. *)
Theorem long_call_is_fatal g p nsmpl run0 before run ref tsv good x rest after :
  tsv_to_vcf_lines g p nsmpl run0 before = Ok run ->
  pending 0 tsv = (good ++ x :: rest)%list ->
  Forall (fun c => usable c = true) good ->
  (length good < Z.to_nat nsmpl)%nat ->
  2 < se_ss x ->
  (forall st iref off, tsv_setter_aa1 st x iref off = (-1, st))
  /\ tsv_to_vcf_lines g p nsmpl run0 (before ++ Row (Some ref) tsv :: after)
     = Fatal ErrParseSite
  /\ (forall st tok iref off,
        se_ss tok <= 2 -> fst (tsv_setter_aa1 st tok iref off) <> -1).
Proof.
  intros Hbefore Hp Hgood Hn Hx. split; [| split].
  - intros st iref off. unfold tsv_setter_aa1.
    destruct (2 <? se_ss x) eqn:E; [reflexivity | apply Z.ltb_ge in E; lia].
  - rewrite tsv_to_vcf_lines_app, Hbefore. simpl.
    unfold tsv_setter_aa.
    replace (Z.to_nat nsmpl) with (length good + S (Z.to_nat nsmpl - S (length good)))%nat by lia.
    rewrite (aa_samples_long _ good x rest _ tsv _ Hp Hgood Hx). reflexivity.
  - intros st tok iref off Hlen. rewrite aa1_ret.
    destruct (2 <? se_ss tok) eqn:E; [apply Z.ltb_lt in E; lia |].
    destruct (marker tok); discriminate.
Qed.

Lemma long_call_is_fatal_witness :
  tsv_to_vcf_lines (fun _ => 0) (fun r => if r <? 0 then -1 else 0) 2
    (Run n_zero [bcf_int32_vector_end; bcf_int32_vector_end; bcf_int32_vector_end;
                 bcf_int32_vector_end] (Bcf1 0 "" []) [])
    ([Comment] ++ Row (Some "C") (TsvT (Cursor "CA ACG" 2) [Cursor "ACG" 3]) :: [Comment])
  = Fatal ErrParseSite.
Proof.
  refine (proj1 (proj2
    (long_call_is_fatal (fun _ => 0) (fun r => if r <? 0 then -1 else 0) 2
       (Run n_zero [bcf_int32_vector_end; bcf_int32_vector_end; bcf_int32_vector_end;
                    bcf_int32_vector_end] (Bcf1 0 "" []) [])
       [Comment] _ "C" (TsvT (Cursor "CA ACG" 2) [Cursor "ACG" 3])
       [Cursor "CA ACG" 2] (Cursor "ACG" 3) [] [Comment] _ _ _ _ _)));
    [ reflexivity | reflexivity | repeat constructor | simpl; lia | simpl; lia ].
Defined.

(** *** Rows with a marker *)

(** Whenever [tsv_setter_aa] returns, it returns 0: [tsv_parse] gets
    the same value for a row that was converted and for a row that was
    left at a marker. *)
Lemma setter_returns_zero g ref nsmpl tsv rec n gts r :
  tsv_setter_aa g ref nsmpl tsv rec n gts = Ok r -> aa_ret r = 0.
Proof.
  unfold tsv_setter_aa. destruct ref as [ref |]; [| discriminate].
  destruct (aa_samples _ _ _ _ _) as [[[ret tsv1] st] | e]; [| discriminate].
  cbn. destruct (ret =? -2); [intros Hr; inversion Hr; reflexivity |].
  destruct (negb _); [discriminate |]. intros Hr; inversion Hr; reflexivity.
Qed.

(** So a [tsv_parse] that reports a failure for 0 lets no row be
    written at all. *)
Lemma rows_not_told_apart g p nsmpl run ref tsv run' :
  p 0 <> 0 ->
  tsv_to_vcf_line g p nsmpl run (Row ref tsv) = Ok run' ->
  run_out run' = run_out run.
Proof.
  intros Hp. unfold tsv_to_vcf_line.
  destruct (tsv_setter_aa g ref nsmpl tsv (run_rec run) _ (run_gts run)) as [r | e] eqn:E;
    [| discriminate].
  cbn. rewrite (setter_returns_zero _ _ _ _ _ _ _ _ E).
  destruct (Z.eqb_spec (p 0) 0); [contradiction |].
  intros Hr; inversion Hr; reflexivity.
Qed.

(** C1, on the code.  A row whose first unusable call is a marker makes
    [tsv_setter_aa] leave its loop and return 0, which is also what it
    returns for a row that it converts.  With a [tsv_parse] that reports
    success for that value (as it has to, for any row to be written),
    the row is not counted as skipped and a record is written for it:
    the record of the previous row, with its allele string and genotype
    vector unchanged. *)
Theorem marker_row_is_written g p nsmpl run ref tsv good x rest :
  p 0 = 0 ->
  pending 0 tsv = (good ++ x :: rest)%list ->
  Forall (fun c => usable c = true) good ->
  (length good < Z.to_nat nsmpl)%nat ->
  se_ss x <= 2 -> marker x = true ->
  exists run',
    tsv_to_vcf_line g p nsmpl run (Row (Some ref) tsv) = Ok run'
    /\ skipped (run_n run') = skipped (run_n run)
    /\ run_out run'
       = (run_out run ++ [Bcf1 nsmpl (d_allele (run_rec run)) (d_gt (run_rec run))])%list.
Proof.
  intros Hp0 Hp Hgood Hn Hlen Hm.
  unfold tsv_to_vcf_line, tsv_setter_aa.
  replace (Z.to_nat nsmpl) with (length good + S (Z.to_nat nsmpl - S (length good)))%nat by lia.
  destruct (aa_samples_marker (acgt_to_5 (toupper (char_at ref 0))) good x rest
              (Z.to_nat nsmpl - S (length good)) tsv
              (AaState (Counts (int_incr (total (run_n run))) (skipped (run_n run))
                          (hom_rr (run_n run)) (het_ra (run_n run))
                          (hom_aa (run_n run)) (het_aa (run_n run)))
                       (al_set [-1; -1; -1; -1; -1] (acgt_to_5 (toupper (char_at ref 0))) 0)
                       1 (run_gts run))
              Hp Hgood Hlen Hm) as [tsv1 ->].
  simpl. rewrite Hp0. simpl.
  eexists. split; [reflexivity |]. simpl. split; [| reflexivity].
  match goal with
  | |- skipped (st_n (decode_calls good 0 ?st ?iref)) = _ =>
      exact (proj2 (decode_calls_total_skipped iref good 0 st))
  end.
Qed.

Lemma marker_row_is_written_witness :
  exists run',
    tsv_to_vcf_line (fun _ => 0) (fun r => if r <? 0 then -1 else 0) 2
      (Run (Counts 1 0 1 0 0 0)
           [bcf_gt_unphased 0; bcf_gt_unphased 0; bcf_gt_unphased 0; bcf_gt_unphased 0]
           (Bcf1 2 "G" [bcf_gt_unphased 0; bcf_gt_unphased 0; bcf_gt_unphased 0;
                        bcf_gt_unphased 0])
           [Bcf1 2 "G" [bcf_gt_unphased 0; bcf_gt_unphased 0; bcf_gt_unphased 0;
                        bcf_gt_unphased 0]])
      (Row (Some "C") (TsvT (Cursor "CC --" 2) [Cursor "--" 2])) = Ok run'
    /\ skipped (run_n run') = 0
    /\ length (run_out run') = 2%nat.
Proof.
  destruct (marker_row_is_written (fun _ => 0) (fun r => if r <? 0 then -1 else 0) 2
      (Run (Counts 1 0 1 0 0 0)
           [bcf_gt_unphased 0; bcf_gt_unphased 0; bcf_gt_unphased 0; bcf_gt_unphased 0]
           (Bcf1 2 "G" [bcf_gt_unphased 0; bcf_gt_unphased 0; bcf_gt_unphased 0;
                        bcf_gt_unphased 0])
           [Bcf1 2 "G" [bcf_gt_unphased 0; bcf_gt_unphased 0; bcf_gt_unphased 0;
                        bcf_gt_unphased 0]])
      "C" (TsvT (Cursor "CC --" 2) [Cursor "--" 2]) [Cursor "CC --" 2] (Cursor "--" 2) []
      eq_refl eq_refl ltac:(repeat constructor) ltac:(simpl; lia) ltac:(simpl; lia) eq_refl)
    as [run' [H1 [H2 H3]]].
  exists run'. split; [exact H1 |]. split; [exact H2 |]. rewrite H3. reflexivity.
Defined.

(** The scenario of a site with reference C and the calls "CC", "CA",
    "AA": the alleles are "C,A" and the tallies are one hom-ref, one
    het ref/alt and one hom-alt. *)
Example three_calls_row :
  (tsv_setter_aa (fun _ => 0) (Some "C") 3
     (TsvT (Cursor "CC CA AA" 2) [Cursor "CA AA" 2; Cursor "AA" 2]) (Bcf1 0 "" []) n_zero
     (replicate 6 bcf_int32_vector_end)
   ≫= fun r => Ok (aa_ret r, aa_rec r, aa_n r))
  = Ok (0,
        Bcf1 3 "C,A" [bcf_gt_unphased 0; bcf_gt_unphased 0; bcf_gt_unphased 0;
                      bcf_gt_unphased 1; bcf_gt_unphased 1; bcf_gt_unphased 1],
        Counts 0 0 1 1 1 0).
Proof. reflexivity. Qed.

(** The same row with a fourth call "--": the setter returns 0 again,
    and the record keeps the alleles and genotypes it came with. *)
Example four_calls_row_with_gap :
  (tsv_setter_aa (fun _ => 0) (Some "C") 4
     (TsvT (Cursor "CC CA AA --" 2) [Cursor "CA AA --" 2; Cursor "AA --" 2; Cursor "--" 2])
     (Bcf1 4 "G,T" (replicate 8 (bcf_gt_unphased 0))) n_zero
     (replicate 8 (bcf_gt_unphased 0))
   ≫= fun r => Ok (aa_ret r, aa_rec r))
  = Ok (0, Bcf1 4 "G,T" (replicate 8 (bcf_gt_unphased 0))).
Proof. reflexivity. Qed.

(** *** The allele table of a site *)

Lemma assigned_bound al : length al = 5%nat -> 0 <= assigned al <= 5.
Proof.
  intros Hl. unfold assigned.
  pose proof (List.filter_length_le (fun v => 0 <=? v) al). lia.
Qed.

Lemma assigned_set al a v :
  length al = 5%nat -> 0 <= a < 5 -> al_get al a < 0 -> 0 <= v ->
  assigned (al_set al a v) = assigned al + 1.
Proof.
  intros Hl Ha Hneg Hv. five_slots al Hl.
  code_cases a Ha; cbv [al_get al_set assigned] in *; simpl in *;
    repeat match goal with
           | |- context [0 <=? ?x] => destruct (Z.leb_spec 0 x); simpl
           end; lia.
Qed.

Lemma table_inv_init iref : 0 <= iref < 5 -> table_inv iref [] (site_table iref) 1.
Proof.
  intros H. code_cases iref H; repeat split; try reflexivity;
    try (cbv; congruence);
    try (intros b Hb Hz; code_cases b Hb; try reflexivity; cbv in Hz; congruence);
    try (intros Hz; code_cases b H; cbv in Hz; try (left; reflexivity); exfalso;
         apply Hz; reflexivity);
    try (intros [-> | []]; cbv; congruence).
Qed.

Lemma table_inv_assign iref seen al nals a :
  table_inv iref seen al nals -> 0 <= a < 5 ->
  table_inv iref (seen ++ [a]) (fst (assign (al, nals) a)) (snd (assign (al, nals) a)).
Proof.
  intros (Hl & Hn & Hc & Hr & Hz & Hs) Ha.
  pose proof (assigned_bound al Hl) as Hb.
  unfold assign. destruct (al_get al a <? 0) eqn:E; simpl.
  - apply Z.ltb_lt in E.
    assert (Hget : forall b, 0 <= b < 5 ->
               al_get (al_set al a nals) b = if decide (b = a) then nals else al_get al b).
    { intros b Hb'. five_slots al Hl.
      code_cases a Ha; code_cases b Hb'; reflexivity. }
    assert (Hai : a <> iref) by (intros ->; lia).
    repeat split.
    + unfold al_set. rewrite length_insert. exact Hl.
    + rewrite int_incr_small by lia. lia.
    + rewrite int_incr_small by lia. rewrite assigned_set by (auto; lia). lia.
    + destruct (decide (0 <= iref < 5)) as [Hi | Hi].
      * rewrite Hget by exact Hi. destruct (decide (iref = a)); [congruence | exact Hr].
      * unfold al_get, al_set in *.
        destruct (decide (iref < 0)).
        -- replace (Z.to_nat iref) with 0%nat in * by lia.
           five_slots al Hl. code_cases a Ha; simpl in *; lia.
        -- rewrite list_lookup_insert_ne by lia. exact Hr.
    + intros b Hb' Hz'. rewrite Hget in Hz' by exact Hb'.
      destruct (decide (b = a)); [lia | auto].
    + rewrite Hget by assumption. intros Hge. rewrite in_app_iff. simpl.
      destruct (decide (b = a)); [auto |].
      apply Hs in Hge; [| assumption]. tauto.
    + rewrite Hget by assumption. rewrite in_app_iff. simpl.
      destruct (decide (b = a)); [lia |].
      intros [-> | [Hin | [-> | []]]]; try congruence; apply Hs; auto.
  - apply Z.ltb_ge in E.
    repeat split; auto.
    + intros Hge. rewrite in_app_iff. apply Hs in Hge; tauto.
    + rewrite in_app_iff. simpl. intros [-> | [Hin | [-> | []]]]; try lia; apply Hs; auto.
Qed.

Lemma table_inv_seen iref seen seen' al nals :
  (forall b, In b seen <-> In b seen') ->
  table_inv iref seen al nals -> table_inv iref seen' al nals.
Proof.
  intros Heq (Hl & Hn & Hc & Hr & Hz & Hs). repeat split; auto.
  - intros Hge. apply Hs in Hge; [| assumption]. rewrite <- Heq. exact Hge.
  - rewrite <- Heq. apply Hs. assumption.
Qed.

Lemma table_inv_decode iref calls : forall i seen st,
  Forall (fun c => usable c = true) calls ->
  table_inv iref seen (st_alleles st) (st_nals st) ->
  table_inv iref (seen ++ call_codes calls)
    (st_alleles (decode_calls calls i st iref)) (st_nals (decode_calls calls i st iref)).
Proof.
  induction calls as [| c calls IH]; intros i seen st Hu Hinv.
  - simpl. rewrite app_nil_r. exact Hinv.
  - inversion Hu as [| ? ? Hc Hcalls]; subst. cbn [decode_calls].
    apply (table_inv_seen iref ((seen ++ [code0 c; code1 c]) ++ call_codes calls)).
    { intros b. unfold call_codes. simpl. rewrite !in_app_iff. simpl. tauto. }
    apply IH; [exact Hcalls |].
    rewrite (aa1_usable _ _ _ _ Hc).
    pose proof (table_inv_assign iref seen _ _ (code0 c) Hinv (code0_range c)) as H1.
    destruct (assign (st_alleles st, st_nals st) (code0 c)) as [al1 n1]. simpl in H1.
    pose proof (table_inv_assign iref _ _ _ (code1 c) H1 (code1_range c)) as H2.
    destruct (assign (al1, n1) (code1 c)) as [al2 n2]. simpl in H2. simpl.
    apply (table_inv_seen iref ((seen ++ [code0 c]) ++ [code1 c])); [| exact H2].
    intros b. rewrite !in_app_iff. simpl. tauto.
Qed.

Lemma call_codes_range calls a : In a (call_codes calls) -> 0 <= a < 5.
Proof.
  unfold call_codes. rewrite in_flat_map. intros [c [_ [<- | [<- | []]]]].
  - apply code0_range.
  - apply code1_range.
Qed.

(** The string that the last loop of [tsv_setter_aa] builds. *)
Lemma put_alleles_str al ref0 :
  length al = 5%nat ->
  fold_left (put_allele al) [0; 1; 2; 3; 4] (kputc ref0 "")
  = allele_str ref0 (List.filter (fun a => 0 <? al_get al a) [0; 1; 2; 3; 4]).
Proof.
  intros Hl. five_slots al Hl. cbv [fold_left put_allele al_get List.filter]. simpl.
  repeat match goal with
         | |- context [0 <? ?x] => destruct (0 <? x)
         end; reflexivity.
Qed.

Lemma cstr_allele_str ref0 alts :
  ref0 <> NUL -> Forall (fun a => 0 <= a < 5) alts ->
  cstr (allele_str ref0 alts) = allele_str ref0 alts.
Proof.
  intros Hr Ha. unfold allele_str. simpl.
  assert (Hz : is_nul ref0 = false) by (apply Ascii.eqb_neq; exact Hr).
  rewrite Hz. f_equal.
  induction Ha as [| a alts Hrange _ IH]; [reflexivity |].
  simpl. rewrite IH.
  code_cases a Hrange; reflexivity.
Qed.

Lemma toupper_nul c : toupper c = NUL -> c = NUL.
Proof.
  destruct c as [[] [] [] [] [] [] [] []]; vm_compute; congruence.
Qed.

(** *** The allele string of a converted row *)




(** The alternates are written in the order of the table slots, not in
    the order of their indices: with reference C and the calls "TT" and
    "AA", T has index 1 and A index 2, and the allele string is "C,A,T". *)
Example alleles_in_slot_order :
  (tsv_setter_aa (fun _ => 0) (Some "C") 2
     (TsvT (Cursor "TT AA" 2) [Cursor "AA" 2]) (Bcf1 0 "" []) n_zero
     (replicate 4 bcf_int32_vector_end)
   ≫= fun r => Ok (aa_rec r))
  = Ok (Bcf1 2 "C,A,T" [bcf_gt_unphased 1; bcf_gt_unphased 1;
                        bcf_gt_unphased 2; bcf_gt_unphased 2]).
Proof. reflexivity. Qed.

End TsvFacts.

Module VcfFacts.
Import Vcf.

Section Gate.
Context `{Extern}.

(** *** The site filter *)

(** C8.  Without a filter every site passes; with a filter and the
    include logic a site passes exactly when [filter_test] is not zero;
    with the exclude logic, exactly when it is zero.  A site that does
    not pass leaves the genotype stream as it is. *)
Theorem filter_gate (flt : filter_t) (logic : Z) (line : bcf1_t) (s : session) (out : BGZF) :
  site_passes None logic line = true
  /\ site_passes (Some flt) FLT_INCLUDE line = negb (filter_test flt line =? 0)
  /\ site_passes (Some flt) FLT_EXCLUDE line = (filter_test flt line =? 0)
  /\ (site_passes (filter s) logic line = false ->
      gensample_site s logic out line = ([EvNextLine line], Ok out)).
Proof.
  split; [reflexivity |]. split; [reflexivity |]. split.
  - unfold site_passes. change (negb (Z.land FLT_EXCLUDE FLT_EXCLUDE =? 0)) with true.
    cbv iota. destruct (filter_test flt line =? 0); reflexivity.
  - intros Hp. unfold gensample_site. rewrite Hp.
    destruct (n_allele line =? 1); reflexivity.
Qed.

(** The filter of a session is there exactly when an expression was
    given. *)
Lemma open_vcf_filter a fmt s :
  open_vcf a fmt = Ok s ->
  filter s = match filter_str a with
             | Some expr => Some (filter_init (header s) expr)
             | None => None
             end.
Proof.
  unfold open_vcf. intros Ho.
  destruct (regions_list a); [destruct (_ <? 0) |]; try discriminate;
    (destruct (targets_list a); [destruct (_ <? 0) |]; try discriminate;
     (destruct (bcf_sr_add_reader (infname a)); [| discriminate];
      cbn in Ho; destruct (select_samples a _) as [[[h1 smp] n] | e]; [| discriminate];
      cbn in Ho; inversion Ho; reflexivity)).
Qed.

End Gate.

Lemma filter_gate_witness :
  site_passes (H := demo) (filter (Session (H := demo) ["s1"] (Some 2) tt)) FLT_INCLUDE 2 = false
  /\ gensample_site (H := demo) (Session (H := demo) ["s1"] (Some 2) tt) FLT_INCLUDE [] 2
     = ([EvNextLine (H := demo) 2], Ok []).
Proof.
  split; [reflexivity |].
  exact (proj2 (proj2 (proj2
    (filter_gate (H := demo) 2 FLT_INCLUDE 2 (Session (H := demo) ["s1"] (Some 2) tt) [])))
    eq_refl).
Defined.

(** *** The option loop *)

Lemma parse_opt_filter a c optarg a1 :
  parse_opt a c optarg = Ok a1 ->
  (c = ch "e" /\ filter_str a1 = Some optarg
   /\ filter_logic a1 = Z.lor (filter_logic a) FLT_EXCLUDE)
  \/ (c = ch "i" /\ filter_str a1 = Some optarg
      /\ filter_logic a1 = Z.lor (filter_logic a) FLT_INCLUDE)
  \/ (c <> ch "e" /\ c <> ch "i" /\ filter_str a1 = filter_str a
      /\ filter_logic a1 = filter_logic a).
Proof.
  unfold parse_opt. intros Hp.
  destruct (Z.eqb_spec c (ch "e")) as [-> | He].
  { inversion Hp; subst. left. auto. }
  destruct (Z.eqb_spec c (ch "i")) as [-> | Hi].
  { inversion Hp; subst. right. left. auto. }
  right. right.
  repeat match type of Hp with
         | (if ?b then _ else _) = _ => destruct b
         end;
    try discriminate; inversion Hp; subst; auto.
Qed.

Lemma parse_opts_filter opts : forall a a',
  parse_opts a opts = Ok a' ->
  filter_logic a'
  = Z.lor (filter_logic a)
      (Z.lor (if has_opt (ch "e") opts then FLT_EXCLUDE else 0)
             (if has_opt (ch "i") opts then FLT_INCLUDE else 0))
  /\ filter_str a' = match last_filter_expr opts with
                     | Some expr => Some expr
                     | None => filter_str a
                     end.
Proof.
  induction opts as [| [c optarg] opts IH]; intros a a' Hp.
  - inversion Hp; subst. simpl. rewrite Z.lor_0_r. auto.
  - simpl in Hp. destruct (parse_opt a c optarg) as [a1 |] eqn:E1; [| discriminate].
    cbn in Hp. destruct (IH a1 a' Hp) as [Hl Hs].
    unfold last_filter_expr, has_opt, is_filter_opt in *. cbn [existsb List.filter fst].
    destruct (parse_opt_filter a c optarg a1 E1)
      as [(-> & Hs1 & Hl1) | [(-> & Hs1 & Hl1) | (He & Hi & Hs1 & Hl1)]].
    + change (ch "e" =? ch "e") with true. change (ch "e" =? ch "i") with false.
      cbn [orb map snd]. rewrite last_cons. split.
      * rewrite Hl, Hl1, <- !Z.lor_assoc. f_equal.
        destruct (existsb _ opts), (existsb _ opts); reflexivity.
      * rewrite Hs, Hs1. destruct (last _); reflexivity.
    + change (ch "i" =? ch "i") with true. change (ch "i" =? ch "e") with false.
      cbn [orb map snd]. rewrite last_cons. split.
      * rewrite Hl, Hl1, <- !Z.lor_assoc. f_equal.
        destruct (existsb _ opts), (existsb _ opts); reflexivity.
      * rewrite Hs, Hs1. destruct (last _); reflexivity.
    + destruct (Z.eqb_spec c (ch "e")); [contradiction |].
      destruct (Z.eqb_spec c (ch "i")); [contradiction |].
      cbn [orb]. rewrite Hl, Hl1, Hs, Hs1. auto.
Qed.

Section Polarity.
Context `{Extern}.

(** C10.  When a command line carries both [-i] and [-e], the option
    loop leaves [filter_logic] at 3 and [filter_str] at the expression
    of the last of them; [open_vcf] compiles that expression, and the
    site filter lets a site pass exactly when [filter_test] is zero on
    it, as under the exclude logic alone. *)
Theorem include_and_exclude_excludes opts positional stdin_tty a :
  main_vcfconvert opts positional stdin_tty = Ok a ->
  has_opt (ch "i") opts = true ->
  has_opt (ch "e") opts = true ->
  filter_logic a = 3
  /\ Z.land (filter_logic a) FLT_EXCLUDE <> 0
  /\ (exists expr, last_filter_expr opts = Some expr /\ filter_str a = Some expr
        /\ forall fmt s, open_vcf a fmt = Ok s ->
                         filter s = Some (filter_init (header s) expr))
  /\ (forall flt line,
        site_passes (Some flt) (filter_logic a) line = (filter_test flt line =? 0)
        /\ site_passes (Some flt) (filter_logic a) line
           = site_passes (Some flt) FLT_EXCLUDE line).
Proof.
  unfold main_vcfconvert. intros Hm Hi He.
  destruct (parse_opts args_init opts) as [a0 |] eqn:E0; [| discriminate].
  cbn in Hm.
  destruct (parse_opts_filter opts args_init a0 E0) as [Hl Hs].
  rewrite Hi, He in Hl. cbn in Hl.
  assert (Ha : filter_logic a = 3 /\ filter_str a = filter_str a0).
  { destruct positional; [| destruct (negb stdin_tty); [| destruct (infname a0)]];
      destruct (convert_func a0); try discriminate; inversion Hm; subst; auto. }
  destruct Ha as [Hl3 Hsa].
  assert (Hex : exists expr, last_filter_expr opts = Some expr).
  { unfold last_filter_expr. apply last_is_Some.
    unfold has_opt in He. apply existsb_exists in He as [[c optarg] [Hin Hc]].
    intros Hnil.
    assert (Hf : In (c, optarg) (List.filter is_filter_opt opts)).
    { apply List.filter_In. split; [exact Hin |]. unfold is_filter_opt. rewrite Hc.
      reflexivity. }
    apply (in_map snd) in Hf. rewrite Hnil in Hf. exact Hf. }
  destruct Hex as [expr Hex]. rewrite Hex in Hs.
  split; [exact Hl3 |]. rewrite Hl3.
  split; [discriminate |].
  split.
  - exists expr. split; [exact Hex |]. split; [congruence |].
    intros fmt s Ho. rewrite (open_vcf_filter a fmt s Ho). rewrite Hsa, Hs. reflexivity.
  - intros flt line. unfold site_passes.
    change (negb (Z.land 3 FLT_EXCLUDE =? 0)) with true.
    change (negb (Z.land FLT_EXCLUDE FLT_EXCLUDE =? 0)) with true. cbv iota.
    split; [| reflexivity]. destruct (filter_test flt line =? 0); reflexivity.
Qed.

End Polarity.

Lemma include_and_exclude_excludes_witness :
  exists expr,
    last_filter_expr [(ch "i", "QUAL>10"); (ch "g", "out"); (ch "e", "AC=0")] = Some expr
    /\ filter_str (Args (Some "AC=0") 3 None 0 None 0 None 0 (Some do_vcf_to_gensample)
                     "out" (Some "in.vcf") None None VCF) = Some expr.
Proof.
  destruct (include_and_exclude_excludes (H := demo)
              [(ch "i", "QUAL>10"); (ch "g", "out"); (ch "e", "AC=0")] (Some "in.vcf") true
              (Args (Some "AC=0") 3 None 0 None 0 None 0 (Some do_vcf_to_gensample)
                 "out" (Some "in.vcf") None None VCF)
              eq_refl eq_refl eq_refl) as [_ [_ [[expr [H1 [H2 _]]] _]]].
  exists expr. split; [exact H1 | exact H2].
Defined.

(** *** The sample selection *)

Section Samples.
Context `{Extern}.

(** C6.  With a sample list that is given, is not "-" and does not
    start with '^', [open_vcf] does not return when the number of names
    that [hts_readlist] reads differs from the number of samples of the
    restricted header: when [bcf_hdr_set_samples] itself reported
    success the selection ends in the fatal error "The number of samples
    does not match", and in every case [open_vcf] ends in a fatal error
    and [vcf_to_gensample] ends in one before anything is opened or
    written. *)
Theorem sample_count_checked a fmt sl h smpls :
  sample_list a = Some sl ->
  sl <> "-" ->
  char_at sl 0 <> "^"%char ->
  bcf_sr_add_reader (infname a) = Some h ->
  hts_readlist sl (sample_is_file a) = Some smpls ->
  Z.of_nat (length smpls)
    <> bcf_hdr_nsamples (snd (bcf_hdr_set_samples h sl (sample_is_file a))) ->
  (fst (bcf_hdr_set_samples h sl (sample_is_file a)) = 0 ->
   select_samples a h = Fatal ErrSampleCount)
  /\ (exists e, open_vcf a fmt = Fatal e)
  /\ (forall sites, exists e, vcf_to_gensample a sites = ([], Fatal e)).
Proof.
  intros Hsl Hdash Hneg Hrd Hlist Hcount.
  assert (Hsel : exists e, select_samples a h = Fatal e
                 /\ (fst (bcf_hdr_set_samples h sl (sample_is_file a)) = 0 ->
                     e = ErrSampleCount)).
  { unfold select_samples. rewrite Hsl.
    destruct (String.eqb_spec "-" sl) as [E | _]; [congruence |]. cbn [negb].
    destruct (bcf_hdr_set_samples h sl (sample_is_file a)) as [ret h1]. cbn [fst snd] in *.
    destruct (ret <? 0) eqn:E1; [eexists; split; [reflexivity |]; intros ->; discriminate |].
    destruct (0 <? ret) eqn:E2; [eexists; split; [reflexivity |]; intros ->; discriminate |].
    destruct (Ascii.eqb_spec (char_at sl 0) "^") as [E | _]; [contradiction |]. cbn [negb].
    rewrite Hlist.
    destruct (Z.eqb_spec (Z.of_nat (length smpls)) (bcf_hdr_nsamples h1)); [contradiction |].
    cbn [negb]. eexists. split; reflexivity. }
  destruct Hsel as [e [Hsel He]].
  assert (Hopen : forall f, exists e', open_vcf a f = Fatal e').
  { intros f. unfold open_vcf.
    destruct (regions_list a); [destruct (_ <? 0) |]; cbn; eauto;
      (destruct (targets_list a); [destruct (_ <? 0) |]; cbn; eauto;
       rewrite Hrd; cbn; rewrite Hsel; cbn; eauto). }
  split; [| split].
  - intros Hz. rewrite Hsel, (He Hz). reflexivity.
  - apply Hopen.
  - intros sites. unfold vcf_to_gensample.
    destruct (gensample_format (tag a)) as [f | e0]; cbn.
    + destruct (Hopen f) as [e' ->]. eauto.
    + eauto.
Qed.

End Samples.

Lemma sample_count_checked_witness :
  exists e,
    vcf_to_gensample (H := demo)
      (Args None 0 None 0 None 0 (Some "s1,s1") 0 (Some do_vcf_to_gensample)
         "out" (Some "in.vcf") None None VCF) [2; 1; 3]
    = ([], Fatal e).
Proof.
  exact (proj2 (proj2
    (sample_count_checked (H := demo)
       (Args None 0 None 0 None 0 (Some "s1,s1") 0 (Some do_vcf_to_gensample)
          "out" (Some "in.vcf") None None VCF)
       "" "s1,s1" ["s1"; "s2"; "s3"] ["s1"; "s1"]
       eq_refl ltac:(discriminate) ltac:(discriminate) eq_refl eq_refl ltac:(discriminate)))
    [2; 1; 3]).
Defined.

(** *** The output specifier *)

Lemma scan_comma_none s : no_comma s = true -> scan_comma s = (s, None).
Proof.
  induction s as [| c s IH]; [reflexivity |]. simpl. intros Hn.
  apply andb_true_iff in Hn as [Hc Hs]. apply negb_true_iff in Hc.
  rewrite Hc, (IH Hs). reflexivity.
Qed.

Lemma scan_comma_some g r :
  no_comma g = true -> scan_comma (g ++ String "," r) = (g, Some r).
Proof.
  induction g as [| c g IH]; [reflexivity |]. simpl. intros Hn.
  apply andb_true_iff in Hn as [Hc Hg]. apply negb_true_iff in Hc.
  rewrite Hc, (IH Hg). reflexivity.
Qed.

Lemma ch_diff c d : c <> d -> ch c - ch d <> 0.
Proof.
  unfold ch. intros Hne Hz. apply Hne.
  rewrite <- (ascii_nat_embedding c), <- (ascii_nat_embedding d). f_equal. lia.
Qed.

Lemma tolower_dot a : tolower a = "."%char -> a = "."%char.
Proof.
  destruct a as [[] [] [] [] [] [] [] []]; vm_compute; congruence.
Qed.

Lemma strcasecmp_gz a b c :
  strcasecmp ".gz" (String a (String b (String c ""))) = 0
  <-> a = "."%char /\ tolower b = "g"%char /\ tolower c = "z"%char.
Proof.
  cbn [strcasecmp].
  change (tolower ".") with "."%char. change (tolower "g") with "g"%char.
  change (tolower "z") with "z"%char.
  destruct (Ascii.eqb_spec "." (tolower a)) as [Ea | Ea].
  - destruct (Ascii.eqb_spec "g" (tolower b)) as [Eb | Eb].
    + destruct (Ascii.eqb_spec "z" (tolower c)) as [Ec | Ec].
      * split; [| reflexivity]. intros _. symmetry in Ea. apply tolower_dot in Ea. auto.
      * split; [intros Hz; exfalso; exact (ch_diff _ _ Ec Hz) |].
        intros (_ & _ & Hc). congruence.
    + split; [intros Hz; exfalso; exact (ch_diff _ _ Eb Hz) |].
      intros (_ & Hb & _). congruence.
  - split; [intros Hz; exfalso; exact (ch_diff _ _ Ea Hz) |].
    intros (-> & _ & _). exfalso. apply Ea. reflexivity.
Qed.

Lemma substring_all s : String.substring 0 (String.length s) s = s.
Proof. induction s as [| c s IH]; [reflexivity |]. simpl. rewrite IH. reflexivity. Qed.

Lemma str_from_app stem sfx : str_from (stem ++ sfx) (Z.of_nat (String.length stem)) = sfx.
Proof.
  unfold str_from. rewrite Nat2Z.id.
  induction stem as [| c stem IH]; simpl.
  - rewrite Nat.sub_0_r. apply substring_all.
  - exact IH.
Qed.

Lemma string_app_length (s t : string) :
  String.length (s ++ t) = (String.length s + String.length t)%nat.
Proof. induction s as [| c s IH]; simpl; [reflexivity | rewrite IH; reflexivity]. Qed.

Lemma last_three g :
  (3 <= String.length g)%nat ->
  exists stem a b c, g = stem ++ String a (String b (String c "")).
Proof.
  induction g as [| x g IH]; simpl; intros Hl; [lia |].
  destruct (le_lt_dec 3 (String.length g)) as [Hge | Hlt].
  - destruct (IH Hge) as (stem & a & b & c & ->).
    exists (String x stem), a, b, c. reflexivity.
  - destruct g as [| b [| c [| d g]]]; simpl in *; try lia.
    exists "", x, b, c. reflexivity.
Qed.

(** C7, as the code has it.  A specifier without a comma gives the
    genotype path [s.gen.gz], compressed, and the sample path
    [s.samples].  A specifier with a comma gives the text before the
    first comma as the genotype path and the text after it as the
    sample path, and the genotype stream is compressed exactly when the
    genotype path ends in ".gz" compared without regard to case
    (".gz", ".GZ", ".Gz", ".gZ"). *)
Theorem output_names_resolved s g r :
  no_comma s = true ->
  no_comma g = true ->
  output_names s = (s ++ ".gen.gz", s ++ ".samples", 1)
  /\ exists c,
       output_names (g ++ String "," r) = (g, r, c)
       /\ (c = 0 \/ c = 1)
       /\ (c = 1 <->
           exists stem x y,
             g = stem ++ String "." (String x (String y ""))
             /\ tolower x = "g"%char /\ tolower y = "z"%char).
Proof.
  intros Hs Hg. split.
  - unfold output_names. rewrite (scan_comma_none s Hs). reflexivity.
  - unfold output_names. rewrite (scan_comma_some g r Hg).
    eexists. split; [reflexivity |].
    destruct (strlen g <? 3) eqn:E3; cbn [orb].
    + apply Z.ltb_lt in E3. unfold strlen in E3.
      split; [auto |]. split; [discriminate |].
      intros (stem & x & y & -> & _). rewrite string_app_length in E3. simpl in E3. lia.
    + apply Z.ltb_ge in E3. unfold strlen in *.
      destruct (last_three g ltac:(lia)) as (stem & a & b & c & ->).
      replace (Z.of_nat (String.length (stem ++ String a (String b (String c "")))) - 3)
        with (Z.of_nat (String.length stem))
        by (rewrite string_app_length; simpl; lia).
      rewrite str_from_app.
      pose proof (strcasecmp_gz a b c) as Hcmp.
      destruct (Z.eqb_spec (strcasecmp ".gz" (String a (String b (String c "")))) 0)
        as [Ez | Ez]; cbn [negb].
      * split; [auto |]. split; [| reflexivity]. intros _.
        apply Hcmp in Ez as (-> & Hb & Hc). exists stem, b, c. auto.
      * split; [auto |]. split; [discriminate |].
        intros (stem' & x & y & Heq & Hx & Hy). exfalso. apply Ez. apply Hcmp.
        assert (Hlen : String.length stem = String.length stem').
        { apply (f_equal String.length) in Heq. rewrite !string_app_length in Heq.
          simpl in Heq. lia. }
        assert (Hsfx : String a (String b (String c ""))
                       = String "." (String x (String y ""))).
        { rewrite <- (str_from_app stem (String a (String b (String c "")))).
          rewrite Heq, Hlen. apply str_from_app. }
        inversion Hsfx; subst. auto.
Qed.

Lemma output_names_resolved_witness :
  output_names "out" = ("out.gen.gz", "out.samples", 1)
  /\ exists c, output_names ("a.gen" ++ String "," "b.samples") = ("a.gen", "b.samples", c).
Proof.
  destruct (output_names_resolved "out" "a.gen" "b.samples" eq_refl eq_refl)
    as [H1 [c [H2 _]]].
  split; [exact H1 |]. exists c. exact H2.
Defined.

(** C7, as stated, fails: the specifier "a.GZ,b" gives the genotype
    path "a.GZ", which does not end in ".gz", and the stream is
    compressed. *)
Lemma uppercase_gz_is_compressed :
  output_names "a.GZ,b" = ("a.GZ", "b", 1) /\ ~ ends_in_gz "a.GZ".
Proof.
  split; [reflexivity |].
  intros [stem Heq].
  destruct stem as [| c1 [| c2 [| c3 [| c4 [| c5 stem]]]]]; simpl in Heq; discriminate Heq.
Qed.

(** *** Sites without an alternate allele *)

Section Monomorphic.
Context `{Extern}.

Lemma gensample_sites_app s logic before after : forall out,
  gensample_sites s logic out (before ++ after)
  = match gensample_sites s logic out before with
    | (tr, Ok out1) =>
        let (tr', r) := gensample_sites s logic out1 after in ((tr ++ tr')%list, r)
    | (tr, Fatal e) => (tr, Fatal e)
    end.
Proof.
  induction before as [| line before IH]; intros out; simpl.
  - destruct (gensample_sites s logic out after). reflexivity.
  - destruct (gensample_site s logic out line) as [tr [out1 | e]]; [| reflexivity].
    rewrite IH. destruct (gensample_sites s logic out1 before) as [tr1 [out2 | e]].
    + destruct (gensample_sites s logic out2 after) as [tr2 r].
      rewrite app_assoc. reflexivity.
    + reflexivity.
Qed.

Lemma gensample_sites_no_sample_event s logic sites : forall out,
  forallb (fun e => negb (is_sample_event e)) (fst (gensample_sites s logic out sites)) = true.
Proof.
  induction sites as [| line sites IH]; intros out; [reflexivity |]. simpl.
  assert (Hstep : forallb (fun e => negb (is_sample_event e))
                    (fst (gensample_site s logic out line)) = true).
  { unfold gensample_site.
    destruct (n_allele line =? 1); [reflexivity |].
    destruct (negb (site_passes (filter s) logic line)); [reflexivity |].
    destruct (negb (strlen (convert_line (convert s) line) =? 0)); [| reflexivity].
    destruct (bgzf_write out (convert_line (convert s) line)). reflexivity. }
  destruct (gensample_site s logic out line) as [tr [out1 | e]]; simpl in *.
  - specialize (IH out1). destruct (gensample_sites s logic out1 sites) as [tr' r].
    simpl in *. rewrite forallb_app, Hstep, IH. reflexivity.
  - exact Hstep.
Qed.

Lemma gensample_sites_only_site_events s logic sites : forall out,
  forallb (fun e => match e with
                    | EvNextLine _ | EvGenWrite _ | EvGenClose => true
                    | _ => false
                    end) (fst (gensample_sites s logic out sites)) = true.
Proof.
  induction sites as [| line sites IH]; intros out; [reflexivity |]. simpl.
  assert (Hstep : forallb (fun e => match e with
                                    | EvNextLine _ | EvGenWrite _ | EvGenClose => true
                                    | _ => false
                                    end) (fst (gensample_site s logic out line)) = true).
  { unfold gensample_site.
    destruct (n_allele line =? 1); [reflexivity |].
    destruct (negb (site_passes (filter s) logic line)); [reflexivity |].
    destruct (negb (strlen (convert_line (convert s) line) =? 0)); [| reflexivity].
    destruct (bgzf_write out (convert_line (convert s) line)). reflexivity. }
  destruct (gensample_site s logic out line) as [tr [out1 | e]]; simpl in *.
  - specialize (IH out1). destruct (gensample_sites s logic out1 sites) as [tr' r].
    simpl in *. rewrite forallb_app, Hstep, IH. reflexivity.
  - exact Hstep.
Qed.

(** C9.  A record with a single allele (every record carries its
    reference allele, so this is a record with fewer than two) is
    passed over by the site loop before the filter is evaluated and
    before anything is converted or written: the turn consists of the
    read alone and leaves the genotype stream as it is.  Taking the
    record out of the input changes neither the events on the two
    streams nor the way the run ends.  Whatever the input, a run that
    gets as far as the sample file starts with these events, in this
    order: the sample file is opened, the two heading lines are
    printed, one line "name name 0" is printed for every sample of the
    header, in header order, the sample file is closed, the genotype
    stream is opened; everything that follows is a read of a record, a
    write to the genotype stream or its closing.  A run that does not
    get that far ends in a fatal error with no event at all. *)
Theorem monomorphic_site_skipped a s logic out line before after :
  1 <= n_allele line ->
  n_allele line < 2 ->
  gensample_site s logic out line = ([EvNextLine line], Ok out)
  /\ stream_events (fst (vcf_to_gensample a (before ++ line :: after)))
     = stream_events (fst (vcf_to_gensample a (before ++ after)))
  /\ snd (vcf_to_gensample a (before ++ line :: after))
     = snd (vcf_to_gensample a (before ++ after))
  /\ (forall sites gen_fname sample_fname c,
        output_names (outfname a) = (gen_fname, sample_fname, c) ->
        match gensample_format (tag a) ≫= open_vcf a with
        | Fatal e => vcf_to_gensample a sites = ([], Fatal e)
        | Ok s0 =>
            if fopen_w sample_fname then
              exists rest,
                fst (vcf_to_gensample a sites)
                = (EvSampleOpen sample_fname
                   :: EvSamplePrint ("ID_1 ID_2 missing" ++ nl ++ "0 0 0" ++ nl)
                   :: map (fun smpl => EvSamplePrint (smpl ++ " " ++ smpl ++ " 0" ++ nl))
                        (hdr_samples (header s0))
                   ++ EvSampleClose
                   :: EvGenOpen gen_fname (if negb (c =? 0) then "w" else "wu")
                   :: rest)%list
                /\ forallb (fun e => match e with
                                     | EvNextLine _ | EvGenWrite _ | EvGenClose => true
                                     | _ => false
                                     end) rest = true
            else vcf_to_gensample a sites = ([], Fatal ErrWriteSamples)
        end).
Proof.
  intros Hge Hlt.
  assert (Hone : (n_allele line =? 1) = true) by (apply Z.eqb_eq; lia).
  assert (Hstep : forall out', gensample_site s logic out' line = ([EvNextLine line], Ok out')).
  { intros out'. unfold gensample_site. rewrite Hone. reflexivity. }
  assert (Hstep' : forall s' logic' out',
             gensample_site s' logic' out' line = ([EvNextLine line], Ok out')).
  { intros s' logic' out'. unfold gensample_site. rewrite Hone. reflexivity. }
  assert (Hrun : forall s' logic' out',
             stream_events (fst (gensample_sites s' logic' out' (before ++ line :: after)))
             = stream_events (fst (gensample_sites s' logic' out' (before ++ after)))
             /\ snd (gensample_sites s' logic' out' (before ++ line :: after))
                = snd (gensample_sites s' logic' out' (before ++ after))).
  { intros s' logic' out'. rewrite !gensample_sites_app.
    destruct (gensample_sites s' logic' out' before) as [tr [out1 | e]]; [| auto].
    cbn [gensample_sites]. rewrite Hstep'.
    destruct (gensample_sites s' logic' out1 after) as [tr' r]. cbn [fst snd].
    unfold stream_events. rewrite !List.filter_app. cbn. auto. }
  split; [apply Hstep |].
  assert (Hboth : stream_events (fst (vcf_to_gensample a (before ++ line :: after)))
                  = stream_events (fst (vcf_to_gensample a (before ++ after)))
                  /\ snd (vcf_to_gensample a (before ++ line :: after))
                     = snd (vcf_to_gensample a (before ++ after))).
  { unfold vcf_to_gensample.
    destruct (gensample_format (tag a) ≫= open_vcf a) as [s1 | e]; [| auto].
    destruct (output_names (outfname a)) as [[gen_fname sample_fname] is_compressed].
    destruct (negb (fopen_w sample_fname)); [auto |].
    destruct (Hrun s1 (filter_logic a)
                (bgzf_open gen_fname (if negb (is_compressed =? 0) then "w" else "wu")))
      as [Htr Hres].
    destruct (gensample_sites s1 (filter_logic a) _ (before ++ line :: after))
      as [tr1 r1].
    destruct (gensample_sites s1 (filter_logic a) _ (before ++ after)) as [tr2 r2].
    cbn [fst snd] in Htr, Hres. subst r2.
    destruct r1 as [out1 | e]; cbn [fst snd]; unfold stream_events in *;
      rewrite !List.filter_app, Htr; auto. }
  split; [exact (proj1 Hboth) |]. split; [exact (proj2 Hboth) |].
  intros sites gen_fname sample_fname c Hnames. unfold vcf_to_gensample.
  destruct (gensample_format (tag a) ≫= open_vcf a) as [s1 | e]; [| reflexivity].
  rewrite Hnames.
  destruct (fopen_w sample_fname); cbn [negb]; [| reflexivity].
  pose proof (gensample_sites_only_site_events s1 (filter_logic a) sites
                (bgzf_open gen_fname (if negb (c =? 0) then "w" else "wu"))) as Hno.
  destruct (gensample_sites s1 (filter_logic a) _ sites) as [tr [out1 | e]];
    cbn [fst snd] in *.
  - exists (tr ++ [EvGenClose])%list. split.
    + unfold sample_file_events. cbn [app]. rewrite <- !app_assoc. reflexivity.
    + rewrite forallb_app, Hno. reflexivity.
  - exists tr. split.
    + unfold sample_file_events. cbn [app]. rewrite <- !app_assoc. reflexivity.
    + exact Hno.
Qed.

End Monomorphic.

Lemma monomorphic_site_skipped_witness :
  stream_events (H := demo)
    (fst (vcf_to_gensample (H := demo)
            (Args None 0 None 0 None 0 None 0 (Some do_vcf_to_gensample)
               "out" (Some "in.vcf") None None VCF) ([2] ++ 1 :: [3])))
  = stream_events (H := demo)
      (fst (vcf_to_gensample (H := demo)
              (Args None 0 None 0 None 0 None 0 (Some do_vcf_to_gensample)
                 "out" (Some "in.vcf") None None VCF) ([2] ++ [3]))).
Proof.
  refine (proj1 (proj2
    (monomorphic_site_skipped (H := demo)
       (Args None 0 None 0 None 0 None 0 (Some do_vcf_to_gensample)
          "out" (Some "in.vcf") None None VCF)
       (Session (H := demo) ["s1"; "s2"; "s3"] None tt) 0 [] 1 [2] [3] _ _)));
    simpl; lia.
Defined.

(** A run on a header of three samples and the records with 2, 1 and 3
    alleles: the record with one allele leaves no write. *)
Example gensample_run :
  vcf_to_gensample (H := demo)
    (Args None 0 None 0 None 0 None 0 (Some do_vcf_to_gensample)
       "out" (Some "in.vcf") None None VCF) [2; 1; 3]
  = ([EvSampleOpen (H := demo) "out.samples";
      EvSamplePrint ("ID_1 ID_2 missing" ++ nl ++ "0 0 0" ++ nl);
      EvSamplePrint ("s1 s1 0" ++ nl);
      EvSamplePrint ("s2 s2 0" ++ nl);
      EvSamplePrint ("s3 s3 0" ++ nl);
      EvSampleClose;
      EvGenOpen "out.gen.gz" "w";
      EvNextLine (H := demo) 2; EvGenWrite ("site" ++ nl);
      EvNextLine (H := demo) 1;
      EvNextLine (H := demo) 3; EvGenWrite ("site" ++ nl);
      EvGenClose], Ok tt).
Proof. reflexivity. Qed.

End VcfFacts.

(** * Further properties of the tsv to vcf direction *)

Module TsvExtra.
Import Tsv TsvFacts.

(** *** Base letters and table slots *)

(** X1.  The letter written for a table slot decodes to that slot.  A
    character that is none of A, C, G, T is decoded to slot 4 and is
    written back as N; so a character is written back as itself exactly
    when it is one of A, C, G, T, N. *)
Theorem letter_acgt_roundtrip (i : Z) (c : ascii) :
  (0 <= i < 5 -> acgt_to_5 (letter i) = i)
  /\ (letter (acgt_to_5 c) = c <->
      c = "A"%char \/ c = "C"%char \/ c = "G"%char \/ c = "T"%char \/ c = "N"%char)
  /\ (c <> "A"%char -> c <> "C"%char -> c <> "G"%char -> c <> "T"%char ->
      acgt_to_5 c = 4 /\ letter (acgt_to_5 c) = "N"%char).
Proof.
  split; [| split].
  - intros Hi. code_cases i Hi; reflexivity.
  - unfold acgt_to_5.
    destruct (Ascii.eqb_spec c "A") as [-> | HA]; [split; auto |].
    destruct (Ascii.eqb_spec c "C") as [-> | HC]; [split; auto |].
    destruct (Ascii.eqb_spec c "G") as [-> | HG]; [split; auto |].
    destruct (Ascii.eqb_spec c "T") as [-> | HT]; [split; auto |].
    change (letter 4) with "N"%char. split.
    + intros <-. auto.
    + intros [-> | [-> | [-> | [-> | ->]]]]; congruence.
  - intros HA HC HG HT. unfold acgt_to_5.
    destruct (Ascii.eqb_spec c "A"); [contradiction |].
    destruct (Ascii.eqb_spec c "C"); [contradiction |].
    destruct (Ascii.eqb_spec c "G"); [contradiction |].
    destruct (Ascii.eqb_spec c "T"); [contradiction |].
    split; reflexivity.
Qed.

Lemma letter_acgt_roundtrip_witness :
  acgt_to_5 (letter 2) = 2
  /\ acgt_to_5 "X" = 4 /\ letter (acgt_to_5 "X") = "N"%char.
Proof.
  split.
  - refine (proj1 (letter_acgt_roundtrip 2 "X") _). lia.
  - refine (proj2 (proj2 (letter_acgt_roundtrip 2 "X")) _ _ _ _); discriminate.
Defined.

(** *** Case of the call text *)

Lemma toupper_idem c : toupper (toupper c) = toupper c.
Proof. destruct c as [[] [] [] [] [] [] [] []]; reflexivity. Qed.

Lemma is_nul_toupper c : is_nul (toupper c) = is_nul c.
Proof. destruct c as [[] [] [] [] [] [] [] []]; reflexivity. Qed.

Lemma char_at_toupper s : forall k, char_at (str_toupper s) k = toupper (char_at s k).
Proof.
  unfold char_at. induction s as [| c s IH]; intros k; simpl.
  - reflexivity.
  - destruct k as [| k]; [reflexivity | apply IH].
Qed.

Lemma marker_char_upper c :
  (Ascii.eqb c "-" || Ascii.eqb c "I" || Ascii.eqb c "D") = true ->
  (Ascii.eqb (toupper c) "-" || Ascii.eqb (toupper c) "I" || Ascii.eqb (toupper c) "D") = true.
Proof.
  intros H. apply orb_true_iff in H as [H | H]; [apply orb_true_iff in H as [H | H] |];
    apply Ascii.eqb_eq in H; subst c; reflexivity.
Qed.

(** X2.  Decoding does not depend on the case of the call text: when
    the call in upper case does not start with a marker, the call as
    written is decoded to the same return value and the same state.
    The markers themselves are matched as written: a call of at most
    two characters that starts with a lower-case 'i' or 'd' is decoded
    (return value 0), its first character in the class N, while the
    same call in upper case is left as a marker (return value -2). *)
Theorem decoding_ignores_case st tok ref off :
  (marker (upcase tok) = false ->
   tsv_setter_aa1 st tok ref off = tsv_setter_aa1 st (upcase tok) ref off)
  /\ (se_ss tok <= 2 ->
      char_at (ss tok) 0 = "i"%char \/ char_at (ss tok) 0 = "d"%char ->
      fst (tsv_setter_aa1 st tok ref off) = 0
      /\ code0 tok = 4
      /\ fst (tsv_setter_aa1 st (upcase tok) ref off) = -2).
Proof.
  split.
  - intros Hm.
    assert (Hm' : marker tok = false).
    { destruct (marker tok) eqn:E; [| reflexivity].
      unfold marker in *. cbn [upcase ss] in Hm. rewrite char_at_toupper in Hm.
      rewrite (marker_char_upper _ E) in Hm. discriminate. }
    assert (H0 : code0 (upcase tok) = code0 tok).
    { unfold code0. cbn [upcase ss]. rewrite char_at_toupper, toupper_idem. reflexivity. }
    assert (Hn : is_nul (char_at (ss (upcase tok)) 1) = is_nul (char_at (ss tok) 1)).
    { cbn [upcase ss]. rewrite char_at_toupper. apply is_nul_toupper. }
    assert (H1 : code1 (upcase tok) = code1 tok).
    { unfold code1. rewrite Hn, H0. cbn [upcase ss].
      rewrite char_at_toupper, toupper_idem. reflexivity. }
    destruct (se_ss tok <=? 2) eqn:El.
    + rewrite (aa1_usable st tok), (aa1_usable st (upcase tok)).
      * rewrite H0, H1, Hn. reflexivity.
      * unfold usable. cbn [upcase se_ss]. rewrite El, Hm. reflexivity.
      * unfold usable. rewrite El, Hm'. reflexivity.
    + apply Z.leb_gt in El. unfold tsv_setter_aa1. cbn [upcase se_ss].
      destruct (2 <? se_ss tok) eqn:E; [reflexivity | apply Z.ltb_ge in E; lia].
  - intros Hlen Hc. rewrite !aa1_ret. cbn [upcase se_ss].
    destruct (2 <? se_ss tok) eqn:E; [apply Z.ltb_lt in E; lia |].
    unfold marker, code0. cbn [upcase ss]. rewrite char_at_toupper.
    destruct Hc as [-> | ->]; repeat split; reflexivity.
Qed.

Lemma decoding_ignores_case_witness :
  tsv_setter_aa1 (AaState n_zero (site_table 1) 1 [bcf_int32_vector_end; bcf_int32_vector_end])
    (Cursor "ca" 2) 1 0
  = tsv_setter_aa1 (AaState n_zero (site_table 1) 1 [bcf_int32_vector_end; bcf_int32_vector_end])
      (upcase (Cursor "ca" 2)) 1 0
  /\ fst (tsv_setter_aa1
            (AaState n_zero (site_table 1) 1 [bcf_int32_vector_end; bcf_int32_vector_end])
            (Cursor "d" 1) 1 0) = 0.
Proof.
  split.
  - exact (proj1 (decoding_ignores_case
             (AaState n_zero (site_table 1) 1 [bcf_int32_vector_end; bcf_int32_vector_end])
             (Cursor "ca" 2) 1 0) eq_refl).
  - refine (proj1 (proj2 (decoding_ignores_case
             (AaState n_zero (site_table 1) 1 [bcf_int32_vector_end; bcf_int32_vector_end])
             (Cursor "d" 1) 1 0) _ _)); [cbn; lia | right; reflexivity].
Defined.

(** A lower-case 'i' is not a marker: the call is decoded, as the
    class N. *)
Example lower_case_marker_is_decoded :
  fst (tsv_setter_aa1 (AaState n_zero (site_table 1) 1
                         [bcf_int32_vector_end; bcf_int32_vector_end]) (Cursor "i" 1) 1 0) = 0
  /\ fst (tsv_setter_aa1 (AaState n_zero (site_table 1) 1
                            [bcf_int32_vector_end; bcf_int32_vector_end]) (Cursor "I" 1) 1 0) = -2.
Proof. split; reflexivity. Qed.

(** *** Rows with too few calls *)

(** X3.  A row whose calls are all decoded but are fewer than the
    samples of the header ends the run in the fatal error "Too few
    columns": nothing is written for it and the rows after it are not
    read. *)
Theorem too_few_columns g p nsmpl run0 before run ref tsv calls after :
  tsv_to_vcf_lines g p nsmpl run0 before = Ok run ->
  pending 0 tsv = calls ->
  Forall (fun c => usable c = true) calls ->
  (length calls < Z.to_nat nsmpl)%nat ->
  tsv_setter_aa g (Some ref) nsmpl tsv (run_rec run)
    (Counts (int_incr (total (run_n run))) (skipped (run_n run)) (hom_rr (run_n run))
       (het_ra (run_n run)) (hom_aa (run_n run)) (het_aa (run_n run)))
    (run_gts run) = Fatal ErrTooFewColumns
  /\ tsv_to_vcf_lines g p nsmpl run0 (before ++ Row (Some ref) tsv :: after)
     = Fatal ErrTooFewColumns.
Proof.
  intros Hbefore Hp Hu Hn.
  assert (Hset : forall n gts rec,
             tsv_setter_aa g (Some ref) nsmpl tsv rec n gts = Fatal ErrTooFewColumns).
  { intros n gts rec. unfold tsv_setter_aa.
    replace (Z.to_nat nsmpl)
      with (length calls + S (Z.to_nat nsmpl - S (length calls)))%nat by lia.
    assert (Hp' : pending 0 tsv = (calls ++ [])%list) by (rewrite app_nil_r; exact Hp).
    destruct (aa_samples_reach (acgt_to_5 (toupper (char_at ref 0))) calls
                (S (Z.to_nat nsmpl - S (length calls))) 0 tsv
                (AaState n (al_set [-1; -1; -1; -1; -1]
                              (acgt_to_5 (toupper (char_at ref 0))) 0) 1 gts)
                [] Hp' Hu) as [tsv1 [Hp1 ->]].
    destruct calls as [| c calls]; [destruct tsv; discriminate Hp |].
    cbn [length Nat.add] in Hp1 |- *.
    rewrite (aa_samples_exhausted _ _ _ _ _ Hp1). reflexivity. }
  split; [apply Hset |].
  rewrite tsv_to_vcf_lines_app, Hbefore.
  cbv beta iota delta [mbind outcome_bind]. cbn [tsv_to_vcf_lines].
  unfold tsv_to_vcf_line. rewrite Hset. reflexivity.
Qed.

Lemma too_few_columns_witness :
  tsv_to_vcf_lines (fun _ => 0) (fun r => if r <? 0 then -1 else 0) 3
    (Run n_zero (replicate 6 bcf_int32_vector_end) (Bcf1 0 "" []) [])
    ([] ++ Row (Some "C") (TsvT (Cursor "CC CA" 2) [Cursor "CA" 2]) :: [Comment])
  = Fatal ErrTooFewColumns.
Proof.
  refine (proj2
    (too_few_columns (fun _ => 0) (fun r => if r <? 0 then -1 else 0) 3
       (Run n_zero (replicate 6 bcf_int32_vector_end) (Bcf1 0 "" []) []) [] _ "C"
       (TsvT (Cursor "CC CA" 2) [Cursor "CA" 2]) [Cursor "CC CA" 2; Cursor "CA" 2]
       [Comment] _ _ _ _));
    [reflexivity | reflexivity | repeat constructor | simpl; lia].
Defined.

(** *** The indices of a site *)

Lemma al_get_set al a v b :
  length al = 5%nat -> 0 <= a < 5 -> 0 <= b < 5 ->
  al_get (al_set al a v) b = if decide (b = a) then v else al_get al b.
Proof.
  intros Hl Ha Hb. five_slots al Hl. code_cases a Ha; code_cases b Hb; reflexivity.
Qed.

Lemma table_dense_init iref : 0 <= iref < 5 -> table_dense (site_table iref) 1.
Proof.
  intros Hi. unfold site_table. split; [| split].
  - intros b Hb. rewrite al_get_set by (auto; reflexivity).
    destruct (decide (b = iref)); [lia |]. code_cases b Hb; cbv; split; congruence.
  - intros a b Ha Hb. rewrite !al_get_set by (auto; reflexivity).
    destruct (decide (a = iref)), (decide (b = iref)); try congruence.
    + intros _ Hab. code_cases b Hb; cbv in Hab; congruence.
    + intros Hge. exfalso. code_cases a Ha; cbv in Hge; apply Hge; reflexivity.
    + intros Hge. exfalso. code_cases a Ha; cbv in Hge; apply Hge; reflexivity.
  - intros k Hk. exists iref. split; [exact Hi |].
    rewrite al_get_set by (auto; reflexivity).
    destruct (decide (iref = iref)); [lia | congruence].
Qed.

Lemma table_dense_assign iref seen al nals a :
  table_inv iref seen al nals -> table_dense al nals -> 0 <= a < 5 ->
  table_dense (fst (assign (al, nals) a)) (snd (assign (al, nals) a)).
Proof.
  intros (Hl & Hn & Hc & _) (Hrange & Hinj & Hsurj) Ha.
  pose proof (assigned_bound al Hl) as Hb.
  unfold assign. destruct (al_get al a <? 0) eqn:E; cbn [fst snd];
    [| split; [| split]; assumption].
  apply Z.ltb_lt in E. rewrite int_incr_small by lia.
  split; [| split].
  - intros b Hb'. rewrite al_get_set by assumption.
    destruct (decide (b = a)); [lia |]. specialize (Hrange b Hb'). lia.
  - intros x y Hx Hy. rewrite !al_get_set by assumption.
    destruct (decide (x = a)), (decide (y = a)); try congruence.
    + intros _ Hxy. specialize (Hrange y Hy). lia.
    + intros _ Hxy. specialize (Hrange x Hx). lia.
    + apply Hinj; assumption.
  - intros k Hk. destruct (decide (k = nals)) as [-> | Hne].
    + exists a. split; [exact Ha |]. rewrite al_get_set by assumption.
      destruct (decide (a = a)); [reflexivity | congruence].
    + destruct (Hsurj k ltac:(lia)) as [x [Hx Hxk]]. exists x. split; [exact Hx |].
      rewrite al_get_set by assumption.
      destruct (decide (x = a)) as [-> | _]; [lia | exact Hxk].
Qed.

(** What one decoded call leaves in the state. *)
Lemma aa1_step iref seen st tok off :
  usable tok = true ->
  table_inv iref seen (st_alleles st) (st_nals st) ->
  table_dense (st_alleles st) (st_nals st) ->
  (S off < length (st_gts st))%nat ->
  let st1 := snd (tsv_setter_aa1 st tok iref off) in
  table_inv iref (seen ++ [code0 tok; code1 tok]) (st_alleles st1) (st_nals st1)
  /\ table_dense (st_alleles st1) (st_nals st1)
  /\ length (st_gts st1) = length (st_gts st)
  /\ (forall p, p <> off -> p <> S off -> st_gts st1 !! p = st_gts st !! p)
  /\ st_gts st1 !! off = Some (bcf_gt_unphased (al_get (st_alleles st1) (code0 tok)))
  /\ st_gts st1 !! S off
     = Some (if is_nul (char_at (ss tok) 1) then bcf_int32_vector_end
             else bcf_gt_unphased (al_get (st_alleles st1) (code1 tok)))
  /\ (forall b, 0 <= b < 5 -> 0 <= al_get (st_alleles st) b ->
                al_get (st_alleles st1) b = al_get (st_alleles st) b).
Proof.
  intros Hu Hinv Hdense Hoff. rewrite (aa1_usable _ _ _ _ Hu).
  pose proof (code0_range tok) as R0. pose proof (code1_range tok) as R1.
  pose proof (table_inv_assign iref seen _ _ (code0 tok) Hinv R0) as I1.
  pose proof (table_dense_assign iref seen _ _ (code0 tok) Hinv Hdense R0) as D1.
  pose proof (assign_stable (st_alleles st) (st_nals st) (code0 tok)) as S1.
  destruct (assign (st_alleles st, st_nals st) (code0 tok)) as [al1 n1].
  cbn [fst snd] in I1, D1, S1.
  pose proof (table_inv_assign iref _ _ _ (code1 tok) I1 R1) as I2.
  pose proof (table_dense_assign iref _ _ _ (code1 tok) I1 D1 R1) as D2.
  pose proof (assign_stable al1 n1 (code1 tok)) as S2.
  destruct (assign (al1, n1) (code1 tok)) as [al2 n2].
  cbn [fst snd] in I2, D2, S2. cbn [snd st_alleles st_nals st_gts].
  destruct Hinv as (Hl & _). destruct I1 as (Hl1 & _).
  split; [| split; [| split; [| split; [| split; [| split]]]]].
  - apply (table_inv_seen iref ((seen ++ [code0 tok]) ++ [code1 tok])); [| exact I2].
    intros b. rewrite !in_app_iff. simpl. tauto.
  - exact D2.
  - rewrite !length_insert. reflexivity.
  - intros p Hp1 Hp2. rewrite !list_lookup_insert_ne by congruence. reflexivity.
  - rewrite list_lookup_insert_ne by lia. rewrite list_lookup_insert_eq by lia. reflexivity.
  - rewrite list_lookup_insert_eq by (rewrite length_insert; lia). reflexivity.
  - intros b Hb Hge. rewrite S2, S1; auto. rewrite S1; auto.
Qed.

(** What the decoded calls of a row leave in the state. *)
Lemma decode_calls_gts iref calls : forall i seen st,
  Forall (fun c => usable c = true) calls ->
  table_inv iref seen (st_alleles st) (st_nals st) ->
  table_dense (st_alleles st) (st_nals st) ->
  (2 * (i + length calls) <= length (st_gts st))%nat ->
  let st' := decode_calls calls i st iref in
  table_dense (st_alleles st') (st_nals st')
  /\ length (st_gts st') = length (st_gts st)
  /\ (forall p, (p < 2 * i)%nat -> st_gts st' !! p = st_gts st !! p)
  /\ (forall b, 0 <= b < 5 -> 0 <= al_get (st_alleles st) b ->
                al_get (st_alleles st') b = al_get (st_alleles st) b)
  /\ (forall k c, calls !! k = Some c ->
        st_gts st' !! (2 * (i + k))%nat
        = Some (bcf_gt_unphased (al_get (st_alleles st') (code0 c)))
        /\ st_gts st' !! S (2 * (i + k))
           = Some (if is_nul (char_at (ss c) 1) then bcf_int32_vector_end
                   else bcf_gt_unphased (al_get (st_alleles st') (code1 c)))).
Proof.
  induction calls as [| c calls IH]; intros i seen st Hu Hinv Hdense Hlen.
  - cbn [decode_calls]. cbv zeta.
    split; [exact Hdense |]. split; [reflexivity |]. split; [reflexivity |].
    split; [reflexivity |]. intros k c Hk. discriminate Hk.
  - inversion Hu as [| ? ? Hc Hcalls]; subst. cbv zeta. cbn [decode_calls].
    cbn [length] in Hlen.
    destruct (aa1_step iref seen st c (2 * i)%nat Hc Hinv Hdense ltac:(lia))
      as (I1 & D1 & L1 & U1 & G0 & G1 & S1).
    set (st1 := snd (tsv_setter_aa1 st c iref (2 * i)%nat)) in *.
    destruct (IH (S i) _ st1 Hcalls I1 D1 ltac:(rewrite L1; lia))
      as (D' & L' & U' & S' & G').
    pose proof (code0_range c) as R0. pose proof (code1_range c) as R1.
    assert (P0 : 0 <= al_get (st_alleles st1) (code0 c)).
    { destruct I1 as (_ & _ & _ & _ & _ & Hs). apply Hs; [exact R0 |].
      right. rewrite in_app_iff. right. left. reflexivity. }
    assert (P1 : 0 <= al_get (st_alleles st1) (code1 c)).
    { destruct I1 as (_ & _ & _ & _ & _ & Hs). apply Hs; [exact R1 |].
      right. rewrite in_app_iff. right. right. left. reflexivity. }
    split; [exact D' |]. split; [congruence |]. split; [| split].
    + intros p Hp. rewrite U' by lia. apply U1; lia.
    + intros b Hb Hge. rewrite S'; [apply S1; assumption | assumption |].
      rewrite S1; assumption.
    + intros k c' Hk. destruct k as [| k].
      * inversion Hk; subst c'. rewrite Nat.add_0_r.
        rewrite !U' by lia. rewrite G0, G1.
        rewrite (S' _ R0 P0), (S' _ R1 P1). auto.
      * cbn in Hk. replace (i + S k)%nat with (S i + k)%nat by lia. apply G'. exact Hk.
Qed.

(** The number of alternates of a table. *)
Lemma alts_count iref seen al nals :
  0 <= iref < 5 ->
  table_inv iref seen al nals ->
  Z.of_nat (length (List.filter (fun a => 0 <? al_get al a) [0; 1; 2; 3; 4])) = nals - 1.
Proof.
  intros Hi (Hl & Hn & Hc & Hr & Hz & _). subst nals. clear Hn.
  pose proof (Hz 0 ltac:(lia)) as Z0. pose proof (Hz 1 ltac:(lia)) as Z1.
  pose proof (Hz 2 ltac:(lia)) as Z2. pose proof (Hz 3 ltac:(lia)) as Z3.
  pose proof (Hz 4 ltac:(lia)) as Z4. clear Hz.
  five_slots al Hl. cbv [al_get assigned List.filter] in *. simpl in *.
  assert (T : forall v, (v < 0 /\ (0 <=? v) = false /\ (0 <? v) = false)
                        \/ (v = 0 /\ (0 <=? v) = true /\ (0 <? v) = false)
                        \/ (0 < v /\ (0 <=? v) = true /\ (0 <? v) = true)).
  { intros v. destruct (Z.leb_spec 0 v), (Z.ltb_spec 0 v); lia. }
  destruct (T z) as [(? & -> & ->) | [(? & -> & ->) | (? & -> & ->)]];
  destruct (T z0) as [(? & -> & ->) | [(? & -> & ->) | (? & -> & ->)]];
  destruct (T z1) as [(? & -> & ->) | [(? & -> & ->) | (? & -> & ->)]];
  destruct (T z2) as [(? & -> & ->) | [(? & -> & ->) | (? & -> & ->)]];
  destruct (T z3) as [(? & -> & ->) | [(? & -> & ->) | (? & -> & ->)]];
  code_cases iref Hi; simpl in *; lia.
Qed.

Lemma allele_str_length ref0 alts :
  String.length (allele_str ref0 alts) = (1 + 2 * length alts)%nat.
Proof.
  unfold allele_str. cbn [String.length]. f_equal.
  induction alts as [| a alts IH]; [reflexivity |].
  cbn [fold_right String.length length]. rewrite IH. lia.
Qed.

Lemma alts_are_observed iref calls al nals :
  table_inv iref (call_codes calls) al nals ->
  List.filter (fun a => 0 <? al_get al a) [0; 1; 2; 3; 4]
  = List.filter (fun a => negb (a =? iref) && existsb (Z.eqb a) (call_codes calls))
      [0; 1; 2; 3; 4].
Proof.
  intros (Hl & Hn & Hc & Hr & Hz & Hs). apply List.filter_ext_in. intros a Hin.
  assert (Ha : 0 <= a < 5) by (simpl in Hin; lia).
  destruct (Z.ltb_spec 0 (al_get al a)) as [Hpos | Hnot].
  - symmetry. apply andb_true_iff. split.
    + apply negb_true_iff. apply Z.eqb_neq. intros ->. lia.
    + apply existsb_exists. exists a. split; [| apply Z.eqb_refl].
      destruct (proj1 (Hs a Ha) ltac:(lia)) as [-> | Hin']; [lia | exact Hin'].
  - symmetry. apply andb_false_iff.
    destruct (Z.eqb_spec a iref) as [-> | Hne]; [left; reflexivity | right].
    destruct (existsb (Z.eqb a) (call_codes calls)) eqn:E; [| reflexivity].
    apply existsb_exists in E as [x [Hx Hax]]. apply Z.eqb_eq in Hax. subst x.
    pose proof (proj2 (Hs a Ha) (or_intror Hx)) as Hge.
    assert (al_get al a = 0) as H0 by lia. apply Hz in H0; [congruence | exact Ha].
Qed.

(** X4.  In the record of a converted row the genotype vector has two
    slots for each sample, and the indices in it come from one table
    [idx] of the site: the slots of sample [k] are the unphased index
    of the first character of its call and, for a call with a second
    character, the unphased index of that character (the vector-end
    sentinel otherwise).  The reference class has index 0 and no other
    class has; two classes never share an index; the indices used are
    exactly the numbers from 0 to the number of alternate alleles
    written in the allele string. *)
Theorem converted_record_genotypes g ref nsmpl tsv rec n gts calls rest :
  (forall vec, g vec = 0) ->
  char_at ref 0 <> NUL ->
  pending 0 tsv = (calls ++ rest)%list ->
  length calls = Z.to_nat nsmpl ->
  Forall (fun c => usable c = true) calls ->
  (2 * length calls <= length gts)%nat ->
  exists r idx,
    tsv_setter_aa g (Some ref) nsmpl tsv rec n gts = Ok r
    /\ String.length (d_allele (aa_rec r))
       = (1 + 2 * n_alts (acgt_to_5 (toupper (char_at ref 0))) calls)%nat
    /\ length (d_gt (aa_rec r)) = (2 * length calls)%nat
    /\ idx (acgt_to_5 (toupper (char_at ref 0))) = 0
    /\ (forall k c, calls !! k = Some c ->
          d_gt (aa_rec r) !! (2 * k)%nat = Some (bcf_gt_unphased (idx (code0 c)))
          /\ d_gt (aa_rec r) !! S (2 * k)
             = Some (if is_nul (char_at (ss c) 1) then bcf_int32_vector_end
                     else bcf_gt_unphased (idx (code1 c))))
    /\ (forall a, In a (call_codes calls) ->
          0 <= idx a <= Z.of_nat (n_alts (acgt_to_5 (toupper (char_at ref 0))) calls)
          /\ (idx a = 0 <-> a = acgt_to_5 (toupper (char_at ref 0))))
    /\ (forall a b, In a (call_codes calls) -> In b (call_codes calls) ->
                    idx a = idx b -> a = b)
    /\ (forall j, 0 < j <= Z.of_nat (n_alts (acgt_to_5 (toupper (char_at ref 0))) calls) ->
                  exists a, In a (call_codes calls) /\ idx a = j).
Proof.
  intros Hg Hnul Hp Hlen Hu Hbuf.
  set (ref0 := toupper (char_at ref 0)). set (iref := acgt_to_5 ref0).
  set (st0 := AaState n (al_set [-1; -1; -1; -1; -1] iref 0) 1 gts).
  set (st := decode_calls calls 0 st0 iref).
  destruct (aa_samples_done iref calls rest tsv st0 Hp Hu) as [tsv1 Hrun].
  assert (Hres : tsv_setter_aa g (Some ref) nsmpl tsv rec n gts
                 = Ok (AaResult 0 tsv1
                         (Bcf1 nsmpl
                            (cstr (fold_left (put_allele (st_alleles st)) [0; 1; 2; 3; 4]
                                     (kputc ref0 "")))
                            (take (Z.to_nat (nsmpl * 2)) (st_gts st)))
                         (st_n st) (st_gts st))).
  { unfold tsv_setter_aa. fold ref0 iref st0. rewrite <- Hlen, Hrun.
    unfold mbind, outcome_bind. cbv beta iota.
    change (0 =? -2) with false. cbv iota. rewrite Hg. reflexivity. }
  assert (Hi : 0 <= iref < 5) by apply acgt_to_5_range.
  pose proof (table_inv_decode iref calls 0 [] st0 Hu (table_inv_init iref Hi)) as Hinv.
  fold st in Hinv. rewrite app_nil_l in Hinv.
  destruct (decode_calls_gts iref calls 0 [] st0 Hu (table_inv_init iref Hi)
              (table_dense_init iref Hi) ltac:(simpl; lia))
    as (Hdense & Hgl & _ & _ & Hslots).
  fold st in Hdense, Hgl, Hslots. cbn [st0 st_gts] in Hgl.
  pose proof (alts_count iref _ _ _ Hi Hinv) as Hcount.
  rewrite (alts_are_observed iref calls _ _ Hinv) in Hcount. fold (n_alts iref calls) in Hcount.
  destruct Hinv as (Hl & Hn & Hc & Hr & Hz & Hs).
  destruct Hdense as (Hrange & Hinj & Hsurj).
  set (al := st_alleles st) in *.
  assert (Htake : Z.to_nat (nsmpl * 2) = (2 * length calls)%nat) by lia.
  eexists. exists (al_get al). split; [exact Hres |]. cbn [aa_rec d_allele d_gt].
  split; [| split; [| split; [| split; [| split; [| split]]]]].
  - rewrite put_alleles_str by exact Hl. rewrite cstr_allele_str.
    + rewrite allele_str_length.
      rewrite (alts_are_observed iref calls al (st_nals st)); [reflexivity |].
      exact (conj Hl (conj Hn (conj Hc (conj Hr (conj Hz Hs))))).
    + intros H. apply Hnul. apply toupper_nul. exact H.
    + apply List.Forall_forall. intros a Ha. apply List.filter_In in Ha as [Ha _].
      simpl in Ha. lia.
  - rewrite length_take, Htake. lia.
  - exact Hr.
  - intros k c Hk. pose proof (lookup_lt_Some _ _ _ Hk) as Hlt.
    destruct (Hslots k c Hk) as [G0 G1]. cbn [Nat.add] in G0, G1.
    rewrite Htake. rewrite !lookup_take_lt by lia. auto.
  - intros a Hin. pose proof (call_codes_range calls a Hin) as Ha.
    pose proof (proj2 (Hs a Ha) (or_intror Hin)) as Hge.
    specialize (Hrange a Ha). split; [lia |]. split.
    + intros H0. apply Hz; assumption.
    + intros ->. exact Hr.
  - intros a b Hina Hinb Hab.
    pose proof (call_codes_range calls a Hina) as Ha.
    pose proof (call_codes_range calls b Hinb) as Hb.
    apply Hinj; auto. apply Hs; auto.
  - intros j Hj. destruct (Hsurj j ltac:(lia)) as [a [Ha Haj]].
    exists a. split; [| exact Haj].
    destruct (proj1 (Hs a Ha) ltac:(lia)) as [-> | Hin]; [lia | exact Hin].
Qed.

Lemma converted_record_genotypes_witness :
  exists r,
    tsv_setter_aa (fun _ => 0) (Some "C") 2
      (TsvT (Cursor "TT AC" 2) [Cursor "AC" 2]) (Bcf1 0 "" []) n_zero
      (replicate 4 bcf_int32_vector_end) = Ok r
    /\ String.length (d_allele (aa_rec r)) = 5%nat
    /\ length (d_gt (aa_rec r)) = 4%nat.
Proof.
  destruct (converted_record_genotypes (fun _ => 0) "C" 2
      (TsvT (Cursor "TT AC" 2) [Cursor "AC" 2]) (Bcf1 0 "" []) n_zero
      (replicate 4 bcf_int32_vector_end) [Cursor "TT AC" 2; Cursor "AC" 2] []
      (fun _ => eq_refl) ltac:(discriminate) eq_refl eq_refl ltac:(repeat constructor)
      ltac:(simpl; lia)) as [r [idx [H1 [H2 [H3 _]]]]].
  exists r. split; [exact H1 |]. split; [exact H2 | exact H3].
Defined.

(** *** The counters of a run *)

Lemma aa_samples_total_skipped iref todo : forall i tsv st ret tsv' st',
  aa_samples todo i tsv st iref = Ok (ret, tsv', st') ->
  total (st_n st') = total (st_n st) /\ skipped (st_n st') = skipped (st_n st).
Proof.
  induction todo as [| todo IH]; intros i tsv st ret tsv' st' Hr.
  - inversion Hr; subst. auto.
  - cbn [aa_samples] in Hr.
    destruct (if (0 <? i)%nat
              then let (r, t) := tsv_next tsv in
                   if r =? -1 then Fatal ErrTooFewColumns else Ok t
              else Ok tsv) as [tsv1 | e]; [| discriminate].
    cbv beta iota delta [mbind outcome_bind] in Hr.
    pose proof (aa1_total_skipped st (cur tsv1) iref (2 * i)%nat) as [Ht Hs].
    destruct (tsv_setter_aa1 st (cur tsv1) iref (2 * i)%nat) as [r1 st1].
    cbn [snd] in Ht, Hs.
    destruct (r1 =? -1); [discriminate |].
    destruct (r1 =? -2).
    + inversion Hr; subst. auto.
    + destruct (IH _ _ _ _ _ _ Hr) as [Ht' Hs']. split; congruence.
Qed.

Lemma setter_total_skipped g ref nsmpl tsv rec n gts r :
  tsv_setter_aa g ref nsmpl tsv rec n gts = Ok r ->
  total (aa_n r) = total n /\ skipped (aa_n r) = skipped n.
Proof.
  unfold tsv_setter_aa. destruct ref as [ref |]; [| discriminate].
  destruct (aa_samples _ _ _ _ _) as [[[ret tsv1] st] | e] eqn:E; [| discriminate].
  apply aa_samples_total_skipped in E. cbn [st_n] in E.
  cbv beta iota delta [mbind outcome_bind].
  destruct (ret =? -2); [intros Hr; inversion Hr; exact E |].
  destruct (negb _); [discriminate |]. intros Hr; inversion Hr; exact E.
Qed.

Lemma line_accounting g p nsmpl run ref tsv run' :
  tsv_to_vcf_line g p nsmpl run (Row ref tsv) = Ok run' ->
  total (run_n run') = int_incr (total (run_n run))
  /\ ((skipped (run_n run') = skipped (run_n run)
       /\ exists rec, run_out run' = (run_out run ++ [rec])%list)
      \/ (skipped (run_n run') = int_incr (skipped (run_n run))
          /\ run_out run' = run_out run)).
Proof.
  unfold tsv_to_vcf_line.
  destruct (tsv_setter_aa g ref nsmpl tsv (run_rec run) _ (run_gts run)) as [r | e] eqn:E;
    [| discriminate].
  apply setter_total_skipped in E as [Ht Hs]. cbn [total skipped] in Ht, Hs.
  cbv beta iota delta [mbind outcome_bind].
  destruct (p (aa_ret r) =? 0); intros Hr; inversion Hr; subst; cbn.
  - split; [exact Ht |]. left. split; [exact Hs |]. eexists. reflexivity.
  - split; [exact Ht |]. right. split; [rewrite Hs; reflexivity | reflexivity].
Qed.

(** X5.  When the row loop of [tsv_to_vcf] runs to the end (and the
    counters stay below 2^31), "Rows total" has grown by the number of
    lines that are not comments, every one of these rows was either
    written or counted in "Rows skipped", and the records written
    before are kept in front of the new ones.  Comment lines count for
    nothing. *)
Theorem row_accounting g p nsmpl lines : forall run run',
  tsv_to_vcf_lines g p nsmpl run lines = Ok run' ->
  0 <= total (run_n run) ->
  0 <= skipped (run_n run) ->
  total (run_n run) + n_rows lines < 2147483648 ->
  skipped (run_n run) + n_rows lines < 2147483648 ->
  total (run_n run') = total (run_n run) + n_rows lines
  /\ skipped (run_n run) <= skipped (run_n run')
  /\ (skipped (run_n run') - skipped (run_n run))
     + (Z.of_nat (length (run_out run')) - Z.of_nat (length (run_out run)))
     = n_rows lines
  /\ exists new, run_out run' = (run_out run ++ new)%list.
Proof.
  induction lines as [| line lines IH]; intros run run' Hr Ht Hs Hbt Hbs.
  - inversion Hr; subst. unfold n_rows. cbn.
    split; [lia |]. split; [lia |]. split; [lia |]. exists []. rewrite app_nil_r. reflexivity.
  - cbn [tsv_to_vcf_lines] in Hr.
    destruct (tsv_to_vcf_line g p nsmpl run line) as [run1 | e] eqn:E1; [| discriminate].
    cbv beta iota delta [mbind outcome_bind] in Hr.
    destruct line as [| ref tsv].
    + inversion E1; subst run1.
      change (n_rows (Comment :: lines)) with (n_rows lines) in *.
      apply IH; assumption.
    + assert (Hn : n_rows (Row ref tsv :: lines) = n_rows lines + 1).
      { unfold n_rows. cbn [List.filter is_row length]. lia. }
      assert (Hpos : 0 <= n_rows lines) by (unfold n_rows; lia).
      rewrite Hn in *.
      destruct (line_accounting _ _ _ _ _ _ _ E1) as [Ht1 Hcase].
      rewrite int_incr_small in Ht1 by lia.
      destruct Hcase as [[Hs1 [rec Ho1]] | [Hs1 Ho1]].
      * destruct (IH run1 run' Hr ltac:(lia) ltac:(lia) ltac:(lia) ltac:(lia))
          as (Ht' & Hs' & Hsum & [new Hnew]).
        rewrite Ho1 in Hsum, Hnew. rewrite length_app in Hsum. cbn [length] in Hsum.
        split; [lia |]. split; [lia |]. split; [lia |].
        exists (rec :: new). rewrite Hnew, <- app_assoc. reflexivity.
      * rewrite int_incr_small in Hs1 by lia.
        destruct (IH run1 run' Hr ltac:(lia) ltac:(lia) ltac:(lia) ltac:(lia))
          as (Ht' & Hs' & Hsum & [new Hnew]).
        rewrite Ho1 in Hsum, Hnew.
        split; [lia |]. split; [lia |]. split; [lia |]. exists new. exact Hnew.
Qed.

Lemma row_accounting_witness :
  exists run',
    tsv_to_vcf_lines (fun _ => 0) (fun r => if r <? 0 then -1 else 0) 1
      (Run n_zero [bcf_int32_vector_end; bcf_int32_vector_end] (Bcf1 0 "" []) [])
      [Comment; Row (Some "C") (TsvT (Cursor "CA" 2) []); Comment;
       Row (Some "G") (TsvT (Cursor "G" 1) [])] = Ok run'
    /\ total (run_n run') = 2.
Proof.
  destruct (tsv_to_vcf_lines (fun _ => 0) (fun r => if r <? 0 then -1 else 0) 1
              (Run n_zero [bcf_int32_vector_end; bcf_int32_vector_end] (Bcf1 0 "" []) [])
              [Comment; Row (Some "C") (TsvT (Cursor "CA" 2) []); Comment;
               Row (Some "G") (TsvT (Cursor "G" 1) [])]) as [run' | e] eqn:E.
  - exists run'. split; [reflexivity |].
    refine (proj1 (row_accounting (fun _ => 0) (fun r => if r <? 0 then -1 else 0) 1
                     [Comment; Row (Some "C") (TsvT (Cursor "CA" 2) []); Comment;
                      Row (Some "G") (TsvT (Cursor "G" 1) [])]
                     (Run n_zero [bcf_int32_vector_end; bcf_int32_vector_end]
                        (Bcf1 0 "" []) [])
                     run' E _ _ _ _)); vm_compute; first [discriminate | reflexivity].
  - vm_compute in E. discriminate E.
Defined.

Lemma tally_sum n ref a0 a1 :
  0 <= hom_rr n -> 0 <= het_ra n -> 0 <= hom_aa n -> 0 <= het_aa n ->
  class_sum n < 2147483647 ->
  class_sum (tally n ref a0 a1) = class_sum n + 1
  /\ 0 <= hom_rr (tally n ref a0 a1) /\ 0 <= het_ra (tally n ref a0 a1)
  /\ 0 <= hom_aa (tally n ref a0 a1) /\ 0 <= het_aa (tally n ref a0 a1).
Proof.
  unfold class_sum, tally. intros H1 H2 H3 H4 Hs.
  repeat case_match; cbn; rewrite int_incr_small by lia; lia.
Qed.

Lemma decode_calls_sum iref calls : forall i st,
  Forall (fun c => usable c = true) calls ->
  0 <= hom_rr (st_n st) -> 0 <= het_ra (st_n st) ->
  0 <= hom_aa (st_n st) -> 0 <= het_aa (st_n st) ->
  class_sum (st_n st) + Z.of_nat (length calls) < 2147483648 ->
  class_sum (st_n (decode_calls calls i st iref))
  = class_sum (st_n st) + Z.of_nat (length calls).
Proof.
  induction calls as [| c calls IH]; intros i st Hu H1 H2 H3 H4 Hs.
  - cbn. lia.
  - inversion Hu as [| ? ? Hc Hcalls]; subst. cbn [decode_calls length] in *.
    assert (Hst : st_n (snd (tsv_setter_aa1 st c iref (2 * i)%nat))
                  = tally (st_n st) iref (code0 c) (code1 c)).
    { rewrite (aa1_usable _ _ _ _ Hc). destruct (assign (assign _ _) _). reflexivity. }
    destruct (tally_sum (st_n st) iref (code0 c) (code1 c) H1 H2 H3 H4 ltac:(lia))
      as (Hsum & T1 & T2 & T3 & T4).
    rewrite <- Hst in Hsum, T1, T2, T3, T4.
    rewrite IH; auto; lia.
Qed.

(** X6.  The four class counters together grow by one for every call
    that is decoded (while they stay below 2^31): by the number of
    samples for a row that is converted, and by the number of calls
    that stand before the marker for a row that is left at a marker --
    the calls of such a row stay in the tallies. *)
Theorem tallies_count_decoded_calls g ref nsmpl tsv rec n gts good rest :
  pending 0 tsv = (good ++ rest)%list ->
  Forall (fun c => usable c = true) good ->
  0 <= hom_rr n -> 0 <= het_ra n -> 0 <= hom_aa n -> 0 <= het_aa n ->
  class_sum n + Z.of_nat (length good) < 2147483648 ->
  (length good = Z.to_nat nsmpl /\ forall vec, g vec = 0)
  \/ ((length good < Z.to_nat nsmpl)%nat
      /\ exists x rest', rest = x :: rest' /\ se_ss x <= 2 /\ marker x = true) ->
  exists r,
    tsv_setter_aa g (Some ref) nsmpl tsv rec n gts = Ok r
    /\ class_sum (aa_n r) = class_sum n + Z.of_nat (length good).
Proof.
  intros Hp Hu H1 H2 H3 H4 Hs Hcase.
  set (iref := acgt_to_5 (toupper (char_at ref 0))).
  set (st0 := AaState n (al_set [-1; -1; -1; -1; -1] iref 0) 1 gts).
  pose proof (decode_calls_sum iref good 0 st0 Hu H1 H2 H3 H4 Hs) as Hsum.
  cbn [st0 st_n] in Hsum. fold st0 in Hsum.
  destruct Hcase as [[Hlen Hg] | [Hlen (x & rest' & -> & Hx & Hm)]].
  - destruct (aa_samples_done iref good rest tsv st0 Hp Hu) as [tsv1 Hrun].
    eexists. split.
    + unfold tsv_setter_aa. fold iref st0. rewrite <- Hlen, Hrun.
      unfold mbind, outcome_bind. cbv beta iota.
      change (0 =? -2) with false. cbv iota. rewrite Hg. reflexivity.
    + exact Hsum.
  - destruct (aa_samples_marker iref good x rest' (Z.to_nat nsmpl - S (length good)) tsv st0
                Hp Hu Hx Hm) as [tsv1 Hrun].
    eexists. split.
    + unfold tsv_setter_aa. fold iref st0.
      replace (Z.to_nat nsmpl) with (length good + S (Z.to_nat nsmpl - S (length good)))%nat
        by lia.
      rewrite Hrun. reflexivity.
    + exact Hsum.
Qed.

Lemma tallies_count_decoded_calls_witness :
  exists r,
    tsv_setter_aa (fun _ => 0) (Some "C") 3
      (TsvT (Cursor "CC CA --" 2) [Cursor "CA --" 2; Cursor "--" 2]) (Bcf1 0 "" []) n_zero
      (replicate 6 bcf_int32_vector_end) = Ok r
    /\ class_sum (aa_n r) = 2.
Proof.
  refine (tallies_count_decoded_calls (fun _ => 0) "C" 3
      (TsvT (Cursor "CC CA --" 2) [Cursor "CA --" 2; Cursor "--" 2]) (Bcf1 0 "" []) n_zero
      (replicate 6 bcf_int32_vector_end) [Cursor "CC CA --" 2; Cursor "CA --" 2]
      [Cursor "--" 2] eq_refl _ _ _ _ _ _ _).
  - repeat constructor.
  - discriminate.
  - discriminate.
  - discriminate.
  - discriminate.
  - reflexivity.
  - right. split; [cbn; lia |].
    exists (Cursor "--" 2), []. split; [reflexivity |]. split; [cbn; lia | reflexivity].
Defined.

End TsvExtra.

(** * Further properties of the vcf to gen/sample direction *)

Module VcfExtra.
Import Vcf VcfFacts.

(** *** The output specifier *)

Lemma scan_comma_split s : forall g o,
  scan_comma s = (g, o) ->
  no_comma g = true
  /\ match o with
     | None => s = g /\ no_comma s = true
     | Some r => s = g ++ String "," r /\ no_comma s = false
     end.
Proof.
  induction s as [| c s IH]; intros g o Hs.
  - inversion Hs; subst. auto.
  - cbn [scan_comma] in Hs. cbn [no_comma].
    destruct (Ascii.eqb_spec c ",") as [-> | Hc].
    + inversion Hs; subst. auto.
    + destruct (scan_comma s) as [g' o'] eqn:E. inversion Hs; subst.
      destruct (IH g' o eq_refl) as [Hg Ho].
      cbn [no_comma]. destruct (Ascii.eqb_spec c ","); [contradiction |]. cbn [negb andb].
      split; [exact Hg |].
      destruct o as [r |].
      * destruct Ho as [-> Hn]. split; [reflexivity | exact Hn].
      * destruct Ho as [-> Hn]. split; [reflexivity | exact Hn].
Qed.

(** X7.  Every output specifier falls in exactly one of two cases, and
    no part of it is lost: without a comma it is the stem of both
    names; with a comma it is the genotype path, the comma, and the
    sample path, where the genotype path has no comma (it ends at the
    first one; further commas stay in the sample path).  The
    compression flag is 0 or 1. *)
Theorem output_names_split (s : string) :
  exists g smp c,
    output_names s = (g, smp, c)
    /\ (c = 0 \/ c = 1)
    /\ ((no_comma s = true /\ g = s ++ ".gen.gz" /\ smp = s ++ ".samples" /\ c = 1)
        \/ (no_comma s = false /\ s = g ++ String "," smp /\ no_comma g = true)).
Proof.
  unfold output_names.
  destruct (scan_comma s) as [g o] eqn:E.
  destruct (scan_comma_split s g o E) as [Hg Ho].
  destruct o as [r |].
  - destruct Ho as [Hs Hn]. eexists _, _, _. split; [reflexivity |].
    split; [destruct (_ || _); auto |]. right. auto.
  - destruct Ho as [Hs Hn]. eexists _, _, _. split; [reflexivity |].
    split; [auto |]. left. auto.
Qed.

(** The edge cases: the empty specifier and a lone comma. *)
Example output_names_edges :
  output_names "" = (".gen.gz", ".samples", 1)
  /\ output_names "," = ("", "", 0)
  /\ output_names "a.gz,b,c" = ("a.gz", "b,c", 1).
Proof. repeat split. Qed.

(** *** The filter logic *)

Lemma land_exclude_bit logic :
  (Z.land logic FLT_EXCLUDE =? 0) = negb (Z.testbit logic 1).
Proof.
  unfold FLT_EXCLUDE.
  destruct (Z.testbit logic 1) eqn:E; cbn [negb].
  - apply Z.eqb_neq. intros Hz.
    assert (Hb : Z.testbit (Z.land logic 2) 1 = true).
    { rewrite Z.land_spec, E. reflexivity. }
    rewrite Hz in Hb. discriminate Hb.
  - apply Z.eqb_eq. apply Z.bits_inj'. intros k Hk.
    rewrite Z.land_spec, Z.bits_0.
    destruct (Z.eq_dec k 1) as [-> | Hne].
    + rewrite E. reflexivity.
    + replace (Z.testbit 2 k) with false; [apply andb_false_r |].
      symmetry. change 2 with (2 ^ 1). apply Z.pow2_bits_false. congruence.
Qed.

Section Logic.
Context `{Extern}.

(** X8.  With a filter, the decision on a site depends on
    [filter_logic] through its FLT_EXCLUDE bit alone: when the bit is
    set the site passes exactly when [filter_test] is zero, otherwise
    exactly when it is not zero (so the values 0 and FLT_INCLUDE decide
    alike).  The exclude decision is the negation of the include
    decision on every site. *)
Theorem gate_exclude_bit (flt : filter_t) (logic : Z) (line : bcf1_t) :
  site_passes (Some flt) logic line
  = (if Z.testbit logic 1 then filter_test flt line =? 0
     else negb (filter_test flt line =? 0))
  /\ site_passes (Some flt) 0 line = site_passes (Some flt) FLT_INCLUDE line
  /\ site_passes (Some flt) FLT_EXCLUDE line
     = negb (site_passes (Some flt) FLT_INCLUDE line).
Proof.
  assert (Hgen : forall l, site_passes (Some flt) l line
                 = (if Z.testbit l 1 then filter_test flt line =? 0
                    else negb (filter_test flt line =? 0))).
  { intros l. unfold site_passes. rewrite land_exclude_bit, negb_involutive.
    destruct (Z.testbit l 1); [| reflexivity].
    destruct (filter_test flt line =? 0); reflexivity. }
  split; [apply Hgen |]. split.
  - rewrite !Hgen. reflexivity.
  - rewrite !Hgen. cbn. rewrite negb_involutive. reflexivity.
Qed.

(** *** The tag *)

(** X9.  A [--tag] other than "GT" and "PL" (matched as written) ends
    [vcf_to_gensample] in the fatal error "todo: --tag" before the
    input is opened: nothing is read, opened or written. *)
Theorem unsupported_tag_is_fatal a t sites :
  tag a = Some t -> t <> "GT" -> t <> "PL" ->
  vcf_to_gensample a sites = ([], Fatal ErrTag).
Proof.
  intros Ht Hgt Hpl. unfold vcf_to_gensample, gensample_format. rewrite Ht.
  destruct (String.eqb_spec t "GT"); [contradiction |].
  destruct (String.eqb_spec t "PL"); [contradiction |]. reflexivity.
Qed.

(** *** The sample selection *)

(** X10.  When [open_vcf] returns, the session depends on the sample
    list in one of three ways.  Without a list, or with the list "-",
    the header is that of the reader and the converter gets no sample
    array.  With a list that starts with '^', the header is the
    restricted one and the converter again gets no array: the order of
    the header stands.  With any other list, the converter gets the
    header positions of the listed names, in the order of the list, and
    their number is the number of samples of the restricted header. *)
Theorem selection_modes a fmt s h :
  bcf_sr_add_reader (infname a) = Some h ->
  open_vcf a fmt = Ok s ->
  (sample_list a = None \/ sample_list a = Some "-" ->
   header s = h /\ convert s = convert_init h None 0 fmt)
  /\ (forall sl, sample_list a = Some sl -> sl <> "-" ->
        fst (bcf_hdr_set_samples h sl (sample_is_file a)) = 0
        /\ header s = snd (bcf_hdr_set_samples h sl (sample_is_file a))
        /\ (char_at sl 0 = "^"%char -> convert s = convert_init (header s) None 0 fmt)
        /\ (char_at sl 0 <> "^"%char ->
            exists smpls,
              hts_readlist sl (sample_is_file a) = Some smpls
              /\ Z.of_nat (length smpls) = bcf_hdr_nsamples (header s)
              /\ convert s = convert_init (header s)
                               (Some (map (bcf_hdr_id2int (header s)) smpls))
                               (Z.of_nat (length smpls)) fmt)).
Proof.
  intros Hrd Ho.
  assert (Hsel : exists h1 smp n,
             select_samples a h = Ok (h1, smp, n)
             /\ header s = h1 /\ convert s = convert_init h1 smp n fmt).
  { unfold open_vcf in Ho.
    destruct (regions_list a); [destruct (_ <? 0) |]; try discriminate;
      (destruct (targets_list a); [destruct (_ <? 0) |]; try discriminate;
       (rewrite Hrd in Ho; cbn in Ho;
        destruct (select_samples a h) as [[[h1 smp] n] | e]; [| discriminate];
        cbn in Ho; inversion Ho; subst; exists h1, smp, n; auto)). }
  destruct Hsel as (h1 & smp & n & Hsel & Hh & Hc).
  unfold select_samples in Hsel. split.
  - intros [Hn | Hd]; rewrite ?Hn, ?Hd in Hsel; cbn in Hsel;
      inversion Hsel; subst; auto.
  - intros sl Hsl Hdash. rewrite Hsl in Hsel.
    destruct (String.eqb_spec "-" sl) as [E | _]; [congruence |]. cbn [negb] in Hsel.
    destruct (bcf_hdr_set_samples h sl (sample_is_file a)) as [ret h2]. cbn [fst snd].
    destruct (Z.ltb_spec ret 0); [discriminate |].
    destruct (Z.ltb_spec 0 ret); [discriminate |].
    split; [lia |].
    destruct (Ascii.eqb_spec (char_at sl 0) "^") as [Eq | Ne]; cbn [negb] in Hsel.
    + inversion Hsel; subst. split; [reflexivity |]. split; [auto | contradiction].
    + destruct (hts_readlist sl (sample_is_file a)) as [smpls |]; [| discriminate].
      destruct (Z.eqb_spec (Z.of_nat (length smpls)) (bcf_hdr_nsamples h2)) as [En | _];
        cbn [negb] in Hsel; [| discriminate].
      inversion Hsel; subst. split; [reflexivity |]. split; [contradiction |].
      intros _. exists smpls. rewrite En. auto.
Qed.

End Logic.

Lemma unsupported_tag_is_fatal_witness :
  vcf_to_gensample (H := demo)
    (Args None 0 None 0 None 0 None 0 (Some do_vcf_to_gensample)
       "out" (Some "in.vcf") (Some "GL") None VCF) [2; 3]
  = ([], Fatal ErrTag).
Proof.
  refine (unsupported_tag_is_fatal (H := demo)
            (Args None 0 None 0 None 0 None 0 (Some do_vcf_to_gensample)
               "out" (Some "in.vcf") (Some "GL") None VCF) "GL" [2; 3] eq_refl _ _);
    discriminate.
Defined.

Lemma selection_modes_witness :
  exists smpls,
    hts_readlist (Extern := demo) "s3,s1" 0 = Some smpls
    /\ Z.of_nat (length smpls)
       = bcf_hdr_nsamples (H := demo) (header (H := demo) (Session (H := demo) ["s1"; "s3"] None tt)).
Proof.
  destruct (proj2 (selection_modes (H := demo)
      (Args None 0 None 0 None 0 (Some "s3,s1") 0 (Some do_vcf_to_gensample)
         "out" (Some "in.vcf") None None VCF)
      "" (Session (H := demo) ["s1"; "s3"] None tt) ["s1"; "s2"; "s3"] eq_refl eq_refl)
      "s3,s1" eq_refl ltac:(discriminate)) as (_ & _ & _ & Hlist).
  destruct (Hlist ltac:(discriminate)) as (smpls & H1 & H2 & _).
  exists smpls. split; [exact H1 | exact H2].
Defined.

(** *** The genotype stream *)

Section Stream.
Context `{Extern}.

Lemma gensample_site_events s logic out line :
  reads (fst (gensample_site s logic out line)) = [line]
  /\ (forall out1, snd (gensample_site s logic out line) = Ok out1 ->
        gen_writes (fst (gensample_site s logic out line))
        = List.filter (fun str => negb (strlen str =? 0))
            (map (convert_line (convert s)) (List.filter (kept s logic) [line]))).
Proof.
  unfold gensample_site, kept. cbn [List.filter].
  destruct (n_allele line =? 1); cbn [negb andb]; [split; reflexivity |].
  destruct (site_passes (filter s) logic line); cbn [negb]; [| split; reflexivity].
  cbn [map List.filter].
  destruct (negb (strlen (convert_line (convert s) line) =? 0)); [| split; reflexivity].
  destruct (bgzf_write out (convert_line (convert s) line)). split; reflexivity.
Qed.

Lemma gensample_sites_events s logic sites : forall out out',
  snd (gensample_sites s logic out sites) = Ok out' ->
  reads (fst (gensample_sites s logic out sites)) = sites
  /\ gen_writes (fst (gensample_sites s logic out sites))
     = List.filter (fun str => negb (strlen str =? 0))
         (map (convert_line (convert s)) (List.filter (kept s logic) sites)).
Proof.
  induction sites as [| line sites IH]; intros out out' Hr; [split; reflexivity |].
  cbn [gensample_sites] in *.
  destruct (gensample_site_events s logic out line) as [Hrd Hwr].
  destruct (gensample_site s logic out line) as [tr [out1 | e]]; [| discriminate].
  cbn [fst snd] in Hrd, Hwr. specialize (Hwr out1 eq_refl).
  specialize (IH out1).
  destruct (gensample_sites s logic out1 sites) as [tr' r]. cbn [fst snd] in *.
  destruct (IH out' Hr) as [Hrd' Hwr'].
  unfold reads, gen_writes in *. rewrite !flat_map_app, Hrd, Hrd', Hwr, Hwr'.
  split; [reflexivity |].
  cbn [List.filter]. destruct (kept s logic line); cbn [map List.filter app].
  - destruct (negb (strlen (convert_line (convert s) line) =? 0)); reflexivity.
  - reflexivity.
Qed.

Lemma reads_app tr1 tr2 : reads (tr1 ++ tr2) = (reads tr1 ++ reads tr2)%list.
Proof. apply flat_map_app. Qed.

Lemma gen_writes_app tr1 tr2 :
  gen_writes (tr1 ++ tr2) = (gen_writes tr1 ++ gen_writes tr2)%list.
Proof. apply flat_map_app. Qed.

Lemma sample_file_quiet h path :
  reads (sample_file_events h path) = [] /\ gen_writes (sample_file_events h path) = [].
Proof.
  unfold sample_file_events, reads, gen_writes. cbn [flat_map app].
  rewrite !flat_map_app. cbn [flat_map app].
  split; induction (hdr_samples h) as [| x l IHl]; try reflexivity; exact IHl.
Qed.

(** X11.  When [vcf_to_gensample] runs to the end, every record of the
    input was read, in order, and the data written to the genotype
    stream are, in the order of the input, the lines that the converter
    gives for the records with more than one allele that the filter
    lets through, those that are empty left out: one write for each,
    nothing else, nothing twice. *)
Theorem genotype_stream_content a s sites :
  (gensample_format (tag a) ≫= open_vcf a) = Ok s ->
  snd (vcf_to_gensample a sites) = Ok tt ->
  reads (fst (vcf_to_gensample a sites)) = sites
  /\ gen_writes (fst (vcf_to_gensample a sites))
     = List.filter (fun str => negb (strlen str =? 0))
         (map (convert_line (convert s)) (List.filter (kept s (filter_logic a)) sites)).
Proof.
  intros Hs. unfold vcf_to_gensample. rewrite Hs.
  destruct (output_names (outfname a)) as [[gen_fname sample_fname] c].
  destruct (negb (fopen_w sample_fname)); [discriminate |].
  pose proof (gensample_sites_events s (filter_logic a) sites
                (bgzf_open gen_fname (if negb (c =? 0) then "w" else "wu"))) as Hev.
  destruct (gensample_sites s (filter_logic a) _ sites) as [tr [out1 | e]];
    [| discriminate].
  cbn [fst snd] in *. intros _. destruct (Hev out1 eq_refl) as [Hrd Hwr].
  destruct (sample_file_quiet (header s) sample_fname) as [Q1 Q2].
  rewrite !reads_app, !gen_writes_app, Q1, Q2, Hrd, Hwr.
  cbn. rewrite !app_nil_r. split; reflexivity.
Qed.

Lemma sample_file_no_close h path : ~ In EvGenClose (sample_file_events h path).
Proof.
  unfold sample_file_events. cbn [In]. rewrite in_app_iff, in_map_iff. cbn [In].
  intros [Hc | [Hc | [[x [Hc _]] | [Hc | []]]]]; discriminate Hc.
Qed.

Lemma gensample_sites_no_close s logic sites : forall out,
  ~ In EvGenClose (fst (gensample_sites s logic out sites)).
Proof.
  induction sites as [| l sites IH]; intros out; [intros [] |].
  cbn [gensample_sites].
  assert (Hl : ~ In EvGenClose (fst (gensample_site s logic out l))).
  { unfold gensample_site.
    destruct (n_allele l =? 1); [cbn; intros [Hc | []]; discriminate |].
    destruct (negb (site_passes _ _ _)); [cbn; intros [Hc | []]; discriminate |].
    destruct (negb (strlen _ =? 0)); [| cbn; intros [Hc | []]; discriminate].
    destruct (bgzf_write out _). cbn. intros [Hc | [Hc | []]]; discriminate. }
  destruct (gensample_site s logic out l) as [tr1 [out2 | e]]; [| exact Hl].
  specialize (IH out2). destruct (gensample_sites s logic out2 sites) as [tr2 r].
  cbn [fst] in *. rewrite in_app_iff. tauto.
Qed.

(** X12.  A write to the genotype stream that returns another count
    than the length of the data ends the run in the fatal error "Error
    writing": the failed write is the last event, the stream is not
    closed and the records after the one being written are not read. *)
Theorem short_write_is_fatal a s gen_fname sample_fname c before line after tr out1 :
  (gensample_format (tag a) ≫= open_vcf a) = Ok s ->
  output_names (outfname a) = (gen_fname, sample_fname, c) ->
  fopen_w sample_fname = true ->
  gensample_sites s (filter_logic a)
    (bgzf_open gen_fname (if negb (c =? 0) then "w" else "wu")) before = (tr, Ok out1) ->
  kept s (filter_logic a) line = true ->
  strlen (convert_line (convert s) line) <> 0 ->
  fst (bgzf_write out1 (convert_line (convert s) line))
    <> strlen (convert_line (convert s) line) ->
  snd (vcf_to_gensample a (before ++ line :: after)) = Fatal ErrWriteGen
  /\ last (fst (vcf_to_gensample a (before ++ line :: after)))
     = Some (EvGenWrite (convert_line (convert s) line))
  /\ reads (fst (vcf_to_gensample a (before ++ line :: after))) = (reads tr ++ [line])%list
  /\ ~ In EvGenClose (fst (vcf_to_gensample a (before ++ line :: after))).
Proof.
  intros Hs Hnames Hfopen Hbefore Hkept Hlen Hwrite.
  assert (Hstep : gensample_site s (filter_logic a) out1 line
                  = ([EvNextLine line; EvGenWrite (convert_line (convert s) line)],
                     Fatal ErrWriteGen)).
  { unfold gensample_site. unfold kept in Hkept.
    apply andb_true_iff in Hkept as [Hn Hp]. apply negb_true_iff in Hn.
    rewrite Hn, Hp. cbn [negb].
    destruct (Z.eqb_spec (strlen (convert_line (convert s) line)) 0); [contradiction |].
    cbn [negb].
    destruct (bgzf_write out1 (convert_line (convert s) line)) as [ret out2].
    cbn [fst] in Hwrite.
    destruct (Z.eqb_spec ret (strlen (convert_line (convert s) line))); [contradiction |].
    reflexivity. }
  assert (Hno : ~ In EvGenClose tr).
  { pose proof (gensample_sites_no_close s (filter_logic a) before
                  (bgzf_open gen_fname (if negb (c =? 0) then "w" else "wu"))) as Hx.
    rewrite Hbefore in Hx. exact Hx. }
  unfold vcf_to_gensample. rewrite Hs, Hnames, Hfopen. cbn [negb].
  rewrite gensample_sites_app, Hbefore. cbn [gensample_sites]. rewrite Hstep.
  cbn [fst snd].
  split; [reflexivity |]. split; [| split].
  - change [EvNextLine line; EvGenWrite (convert_line (convert s) line)]
      with ([EvNextLine line] ++ [EvGenWrite (convert_line (convert s) line)])%list.
    rewrite !app_assoc. apply last_snoc.
  - destruct (sample_file_quiet (header s) sample_fname) as [Q1 _].
    rewrite !reads_app, Q1. reflexivity.
  - pose proof (sample_file_no_close (header s) sample_fname) as Hsf.
    rewrite !in_app_iff. cbn [In]. intuition discriminate.
Qed.

End Stream.

Lemma genotype_stream_content_witness :
  gen_writes (H := demo)
    (fst (vcf_to_gensample (H := demo)
            (Args (Some "ab") 1 None 0 None 0 None 0 (Some do_vcf_to_gensample)
               "out" (Some "in.vcf") None None VCF) [2; 1; 3; 4]))
  = List.filter (fun str => negb (strlen str =? 0))
      (map (convert_line (Extern := demo) tt)
         (List.filter (kept (H := demo) (Session (H := demo) ["s1"; "s2"; "s3"] (Some 2) tt) 1)
            [2; 1; 3; 4])).
Proof.
  refine (proj2 (genotype_stream_content (H := demo)
      (Args (Some "ab") 1 None 0 None 0 None 0 (Some do_vcf_to_gensample)
         "out" (Some "in.vcf") None None VCF)
      (Session (H := demo) ["s1"; "s2"; "s3"] (Some 2) tt) [2; 1; 3; 4] _ _));
    reflexivity.
Defined.

Lemma short_write_is_fatal_witness :
  snd (vcf_to_gensample (H := demo_short_write)
         (Args None 0 None 0 None 0 None 0 (Some do_vcf_to_gensample)
            "out" (Some "in.vcf") None None VCF) ([1] ++ 2 :: [3]))
  = Fatal ErrWriteGen.
Proof.
  refine (proj1 (short_write_is_fatal (H := demo_short_write)
      (Args None 0 None 0 None 0 None 0 (Some do_vcf_to_gensample)
         "out" (Some "in.vcf") None None VCF)
      (Session (H := demo_short_write) ["s1"; "s2"; "s3"] None tt)
      "out.gen.gz" "out.samples" 1 [1] 2 [3] [EvNextLine (H := demo_short_write) 1] []
      _ _ _ _ _ _ _)); try reflexivity; discriminate.
Defined.

(** *** The option loop *)

Ltac ch_norm :=
  change (ch "e") with 101 in *;
  change (ch "i") with 105 in *;
  change (ch "r") with 114 in *;
  change (ch "R") with 82 in *;
  change (ch "t") with 116 in *;
  change (ch "T") with 84 in *;
  change (ch "s") with 115 in *;
  change (ch "S") with 83 in *;
  change (ch "g") with 103 in *;
  change (ch "f") with 102 in *;
  change (ch "o") with 111 in *;
  change (ch "O") with 79 in *;
  change (ch "h") with 104 in *;
  change (ch "?") with 63 in *.

Lemma parse_opts_fields opts : forall a a',
  parse_opts a opts = Ok a' ->
  sample_list a' = match last_arg [ch "s"; ch "S"] opts with
                   | Some l => Some l
                   | None => sample_list a
                   end
  /\ sample_is_file a' = (if has_opt (ch "S") opts then 1 else sample_is_file a)
  /\ regions_list a' = match last_arg [ch "r"; ch "R"] opts with
                       | Some l => Some l
                       | None => regions_list a
                       end
  /\ regions_is_file a' = (if has_opt (ch "R") opts then 1 else regions_is_file a)
  /\ targets_list a' = match last_arg [ch "t"; ch "T"] opts with
                       | Some l => Some l
                       | None => targets_list a
                       end
  /\ targets_is_file a' = (if has_opt (ch "T") opts then 1 else targets_is_file a)
  /\ outfname a' = match last_arg [ch "g"; ch "o"] opts with
                   | Some f => f
                   | None => outfname a
                   end
  /\ infname a' = match last_arg [2] opts with
                  | Some f => Some f
                  | None => infname a
                  end
  /\ tag a' = match last_arg [1] opts with
              | Some t => Some t
              | None => tag a
              end
  /\ ref_fname a' = match last_arg [ch "f"] opts with
                    | Some f => Some f
                    | None => ref_fname a
                    end
  /\ convert_func a' = match last_func opts with
                       | Some f => Some f
                       | None => convert_func a
                       end.
Proof.
  induction opts as [| [c optarg] opts IH]; intros a a' Hp.
  - inversion Hp; subst. repeat split.
  - cbn [parse_opts] in Hp.
    destruct (parse_opt a c optarg) as [a1 | e] eqn:E1; [| discriminate].
    cbv beta iota delta [mbind outcome_bind] in Hp.
    destruct (IH a1 a' Hp) as (I1 & I2 & I3 & I4 & I5 & I6 & I7 & I8 & I9 & I10 & I11).
    clear IH Hp. rewrite I1, I2, I3, I4, I5, I6, I7, I8, I9, I10, I11.
    clear I1 I2 I3 I4 I5 I6 I7 I8 I9 I10 I11.
    unfold parse_opt in E1.
    repeat match type of E1 with
           | (if ?x =? ?k then _ else _) = _ =>
               destruct (Z.eqb_spec x k) as [-> | ?]
           | (if ?b then _ else _) = _ => destruct b
           end;
      try discriminate E1; inversion E1; subst a1; clear E1;
      unfold last_arg, has_opt, last_func; ch_norm;
      cbn -[last]; rewrite ?last_cons, ?last_app;
      repeat split; repeat case_match; first [reflexivity | congruence].
Qed.

Lemma option_match_id {A} (o : option A) :
  match o with Some x => Some x | None => None end = o.
Proof. destruct o; reflexivity. Qed.

(** X13.  After the option loop each of the sample, region and target
    lists is the argument of the last option of its pair ([-s]/[-S],
    [-r]/[-R], [-t]/[-T]), while the "is a file" flag of the pair is 1
    as soon as the upper-case option occurs anywhere on the command
    line: after [-S file -s a,b] the list "a,b" is taken for a file
    name. *)
Theorem list_options_last_wins opts positional stdin_tty a :
  main_vcfconvert opts positional stdin_tty = Ok a ->
  sample_list a = last_arg [ch "s"; ch "S"] opts
  /\ sample_is_file a = (if has_opt (ch "S") opts then 1 else 0)
  /\ regions_list a = last_arg [ch "r"; ch "R"] opts
  /\ regions_is_file a = (if has_opt (ch "R") opts then 1 else 0)
  /\ targets_list a = last_arg [ch "t"; ch "T"] opts
  /\ targets_is_file a = (if has_opt (ch "T") opts then 1 else 0).
Proof.
  unfold main_vcfconvert. intros Hm.
  destruct (parse_opts args_init opts) as [a0 |] eqn:E0; [| discriminate].
  cbv beta iota delta [mbind outcome_bind] in Hm.
  destruct (parse_opts_fields opts args_init a0 E0)
    as (I1 & I2 & I3 & I4 & I5 & I6 & _).
  cbn [args_init sample_list sample_is_file regions_list regions_is_file targets_list
       targets_is_file] in I1, I2, I3, I4, I5, I6.
  assert (Ha : sample_list a = sample_list a0 /\ sample_is_file a = sample_is_file a0
               /\ regions_list a = regions_list a0 /\ regions_is_file a = regions_is_file a0
               /\ targets_list a = targets_list a0
               /\ targets_is_file a = targets_is_file a0).
  { destruct positional; [| destruct (negb stdin_tty); [| destruct (infname a0)]];
      destruct (convert_func a0); try discriminate; inversion Hm; subst; cbn;
      repeat split. }
  destruct Ha as (-> & -> & -> & -> & -> & ->).
  rewrite I1, I2, I3, I4, I5, I6, !option_match_id.
  repeat split.
Qed.

Lemma list_options_last_wins_witness :
  sample_list (Args None 0 None 0 None 0 (Some "a,b") 1 (Some do_vcf_to_gensample)
                 "out" (Some "in.vcf") None None VCF)
  = last_arg [ch "s"; ch "S"] [(ch "S", "names.txt"); (ch "g", "out"); (ch "s", "a,b")]
  /\ sample_is_file (Args None 0 None 0 None 0 (Some "a,b") 1 (Some do_vcf_to_gensample)
                       "out" (Some "in.vcf") None None VCF)
     = (if has_opt (ch "S") [(ch "S", "names.txt"); (ch "g", "out"); (ch "s", "a,b")]
        then 1 else 0).
Proof.
  destruct (list_options_last_wins
              [(ch "S", "names.txt"); (ch "g", "out"); (ch "s", "a,b")] (Some "in.vcf") true
              (Args None 0 None 0 None 0 (Some "a,b") 1 (Some do_vcf_to_gensample)
                 "out" (Some "in.vcf") None None VCF) eq_refl) as (H1 & H2 & _).
  split; [exact H1 | exact H2].
Defined.

(** X14.  When [main_vcfconvert] reaches the conversion, the direction
    is that of the last of [-g] and [--tsv2vcf], and one of them was
    given (otherwise the command ends in the usage message).  The
    input name is the positional argument when there is one; without
    one it is "-" when the standard input is not a terminal, whatever
    [--tsv2vcf] named, and the argument of the last [--tsv2vcf]
    otherwise.  The output name is the argument of the last of [-g] and
    [-o] ("-" without them), the tag that of the last [--tag], the
    reference that of the last [-f]. *)
Theorem main_resolution opts positional stdin_tty a :
  main_vcfconvert opts positional stdin_tty = Ok a ->
  convert_func a = last_func opts
  /\ last_func opts <> None
  /\ infname a = match positional with
                 | Some f => Some f
                 | None => if stdin_tty then last_arg [2] opts else Some "-"
                 end
  /\ infname a <> None
  /\ outfname a = match last_arg [ch "g"; ch "o"] opts with
                  | Some f => f
                  | None => "-"
                  end
  /\ tag a = last_arg [1] opts
  /\ ref_fname a = last_arg [ch "f"] opts.
Proof.
  unfold main_vcfconvert. intros Hm.
  destruct (parse_opts args_init opts) as [a0 |] eqn:E0; [| discriminate].
  cbv beta iota delta [mbind outcome_bind] in Hm.
  destruct (parse_opts_fields opts args_init a0 E0)
    as (_ & _ & _ & _ & _ & _ & I7 & I8 & I9 & I10 & I11).
  cbn [args_init outfname infname tag ref_fname convert_func] in I7, I8, I9, I10, I11.
  assert (I8' : infname a0 = last_arg [2] opts) by (rewrite I8; apply option_match_id).
  assert (I9' : tag a0 = last_arg [1] opts) by (rewrite I9; apply option_match_id).
  assert (I10' : ref_fname a0 = last_arg [ch "f"] opts)
    by (rewrite I10; apply option_match_id).
  assert (I11' : convert_func a0 = last_func opts)
    by (rewrite I11; apply option_match_id).
  rewrite <- I7, <- I8', <- I9', <- I10', <- I11'.
  destruct positional as [f |]; [| destruct stdin_tty; cbn [negb] in Hm;
                                   [destruct (infname a0) eqn:Ei |]];
    destruct (convert_func a0) eqn:Ec; try discriminate; inversion Hm; subst; cbn;
    rewrite ?Ei, ?Ec; repeat split; congruence.
Qed.

Lemma main_resolution_witness :
  infname (Args None 0 None 0 None 0 (Some "a,b") 0 (Some do_tsv_to_vcf)
             "-" (Some "-") None (Some "ref.fa") VCF)
  = Some "-".
Proof.
  exact (proj1 (proj2 (proj2
    (main_resolution
       [(2, "calls.tsv"); (ch "f", "ref.fa"); (ch "s", "a,b")] None false
       (Args None 0 None 0 None 0 (Some "a,b") 0 (Some do_tsv_to_vcf)
          "-" (Some "-") None (Some "ref.fa") VCF) eq_refl)))).
Defined.

(** *** The end of a run *)

Section Closing.
Context `{Extern}.

Lemma gensample_sites_outcome s logic sites : forall out,
  (exists out', snd (gensample_sites s logic out sites) = Ok out')
  \/ snd (gensample_sites s logic out sites) = Fatal ErrWriteGen.
Proof.
  induction sites as [| l sites IH]; intros out; [left; eexists; reflexivity |].
  cbn [gensample_sites].
  assert (Hl : (exists out', snd (gensample_site s logic out l) = Ok out')
               \/ snd (gensample_site s logic out l) = Fatal ErrWriteGen).
  { unfold gensample_site.
    destruct (n_allele l =? 1); [left; eexists; reflexivity |].
    destruct (negb (site_passes _ _ _)); [left; eexists; reflexivity |].
    destruct (negb (strlen _ =? 0)); [| left; eexists; reflexivity].
    destruct (bgzf_write out _) as [ret out2]. cbn [snd].
    destruct (negb (ret =? _)); [right; reflexivity | left; eexists; reflexivity]. }
  destruct (gensample_site s logic out l) as [tr1 [out2 | e]]; cbn [snd] in Hl.
  - specialize (IH out2). destruct (gensample_sites s logic out2 sites) as [tr2 r].
    exact IH.
  - destruct Hl as [[out' Hc] | Hc]; [discriminate | right; exact Hc].
Qed.

(** X15.  Once the sample file is written, [vcf_to_gensample] ends in
    one of three ways: it returns, or it ends in "Error writing", or in
    "Error closing".  The genotype stream is closed exactly when no
    write failed, and the closing is then the last event of the run. *)
Theorem stream_closed_unless_write_failed a s sites :
  (gensample_format (tag a) ≫= open_vcf a) = Ok s ->
  fopen_w (snd (fst (output_names (outfname a)))) = true ->
  (snd (vcf_to_gensample a sites) = Ok tt
   \/ snd (vcf_to_gensample a sites) = Fatal ErrWriteGen
   \/ snd (vcf_to_gensample a sites) = Fatal ErrCloseGen)
  /\ (In EvGenClose (fst (vcf_to_gensample a sites))
      <-> snd (vcf_to_gensample a sites) <> Fatal ErrWriteGen)
  /\ (snd (vcf_to_gensample a sites) <> Fatal ErrWriteGen ->
      last (fst (vcf_to_gensample a sites)) = Some EvGenClose).
Proof.
  intros Hs Hf. unfold vcf_to_gensample. rewrite Hs.
  destruct (output_names (outfname a)) as [[gen_fname sample_fname] c]. cbn [fst snd] in Hf.
  rewrite Hf. cbn [negb].
  pose proof (gensample_sites_outcome s (filter_logic a) sites
                (bgzf_open gen_fname (if negb (c =? 0) then "w" else "wu"))) as Hout.
  pose proof (gensample_sites_no_close s (filter_logic a) sites
                (bgzf_open gen_fname (if negb (c =? 0) then "w" else "wu"))) as Hno.
  pose proof (sample_file_no_close (header s) sample_fname) as Hsf.
  destruct (gensample_sites s (filter_logic a) _ sites) as [tr [out1 | e]];
    cbn [fst snd] in *.
  - assert (Hres : (if negb (bgzf_close out1 =? 0) then Fatal ErrCloseGen else Ok tt)
                   <> Fatal ErrWriteGen)
      by (destruct (negb _); discriminate).
    split; [destruct (negb _); auto |]. split.
    + split; [intros _; exact Hres |]. intros _.
      rewrite !in_app_iff. cbn [In]. auto.
    + intros _. rewrite !app_assoc. apply last_snoc.
  - destruct Hout as [[out' Hc] | Hc]; [discriminate |]. inversion Hc; subst e.
    split; [auto |]. split.
    + split; [| intros Hc'; congruence].
      rewrite !in_app_iff. cbn [In]. intros [[Hin | [Hin | []]] | Hin];
        [exact (False_ind _ (Hsf Hin)) | discriminate Hin | exact (False_ind _ (Hno Hin))].
    + intros Hc'. congruence.
Qed.

End Closing.

Lemma stream_closed_unless_write_failed_witness :
  In (EvGenClose (H := demo))
     (fst (vcf_to_gensample (H := demo)
             (Args None 0 None 0 None 0 None 0 (Some do_vcf_to_gensample)
                "out" (Some "in.vcf") None None VCF) [2; 1; 3]))
  <-> snd (vcf_to_gensample (H := demo)
             (Args None 0 None 0 None 0 None 0 (Some do_vcf_to_gensample)
                "out" (Some "in.vcf") None None VCF) [2; 1; 3])
      <> Fatal ErrWriteGen.
Proof.
  exact (proj1 (proj2
    (stream_closed_unless_write_failed (H := demo)
       (Args None 0 None 0 None 0 None 0 (Some do_vcf_to_gensample)
          "out" (Some "in.vcf") None None VCF)
       (Session (H := demo) ["s1"; "s2"; "s3"] None tt) [2; 1; 3] eq_refl eq_refl))).
Defined.

End VcfExtra.
